(** * Countdown-timer synchronisation server: model and verified properties

    A shallow embedding of [src/server.js] (the variant with per-controller
    ownership, viewer capacity and the [controllerToSocket] index): the
    [Timer] class, the module-level registries and the Socket.IO event
    handlers.

    Conventions of the embedding.
    - JS numbers that the handlers receive (durations, capacities, clock
      readings) are integers, modelled as [Z].  [Date.now()] is an input of
      every handler and tick, in milliseconds.  [start] and a running
      [adjustTime] read the clock themselves and again inside the [update]
      they end with; the model gives both reads the one reading of the
      call.  What a method decides (whether it starts or stops the timer,
      [duration], the start time) rests on its own read; only the
      [remaining] a timer that keeps running is left with rests on the
      second one, and no statement below speaks of it.
    - A JS [Map] is a [gmap]; a JS [Set] is the list of its elements in
      insertion order without repetition ([forEach] and [Array.from] visit
      it in that order).
    - A handle returned by [setInterval] is modelled by the flag
      [interval]: [true] when [this.interval] holds a handle.
    - [io.sockets.sockets] is the set of identifiers of the live sockets.
    - Outbound [emit]s are collected in a list, in the order they are made. *)

From Stdlib Require Import ZArith Lia.
From stdpp Require Import base option list gmap strings.

Open Scope Z_scope.

(** ** Outbound notifications *)

(** The object built by [Timer.getState]. *)
Record TimerState := mkTimerState {
  ts_id : string;
  ts_name : string;
  ts_duration : Z;
  ts_remaining : Z;
  ts_isRunning : bool;
  ts_message : string;
  ts_backgroundColor : string;
  ts_textColor : string;
  ts_fontSize : string;
  ts_isFlashing : bool;
  ts_connectedCount : nat;
  ts_timerView : string
}.

(** One element of the array built by [getTimersForController]. *)
Record Summary := mkSummary {
  sm_id : string;
  sm_name : string;
  sm_duration : Z;
  sm_connectedCount : nat
}.

Inductive LimitType := Timers | Viewers.

(** The payloads of [socket.emit].  The text of a [limit-exceeded] message
    is represented by the number interpolated into it. *)
Inductive Outbound :=
| TimerUpdate (s : TimerState)
| TimerJoined (s : TimerState)
| TimerCreated (s : TimerState)
| TimerList (l : list Summary)
| TimerNotFound (timerId : string)
| TimerFull (timerId failedSocketId : string) (isgood : bool)
| TimerDeleted (timerId : string)
| LimitExceeded (timerId : option string) (type : LimitType) (limit : Z).

(** An emission: the identifier of the receiving socket and the payload. *)
Definition Emit : Type := string * Outbound.

(** ** JS sets as insertion-ordered lists *)

Definition set_has (x : string) (l : list string) : bool := bool_decide (x ∈ l).

Definition set_add (x : string) (l : list string) : list string :=
  if set_has x l then l else l ++ [x].

Definition set_delete (x : string) (l : list string) : list string :=
  filter (λ y, y ≠ x) l.

(** ** The Timer class *)

Record Timer := mkTimer {
  id : string;
  name : string;
  duration : Z;
  originalDuration : Z;
  remaining : Z;
  isRunning : bool;
  maxConnectionsAllowed : Z;
  maxTimersAllowed : Z;
  startTime : option Z;
  message : string;
  backgroundColor : string;
  textColor : string;
  fontSize : string;
  isFlashing : bool;
  connectedDevices : list string;
  interval : bool;
  controllerId : option string;
  timerView : string
}.

(** The [styling] argument of [create-timer] and [update-styling]; an
    absent field is [None]. *)
Record Styling := mkStyling {
  sty_backgroundColor : option string;
  sty_textColor : option string;
  sty_fontSize : option string;
  sty_timerView : option string
}.

(** [v || d] for a string-valued [v]: [undefined] and the empty string are
    falsy. *)
Definition or_else (v : option string) (d : string) : string :=
  match v with
  | Some s => if decide (s = EmptyString) then d else s
  | None => d
  end.

(** Truthiness of [this.startTime]: [null] and [0] are falsy. *)
Definition truthy (v : option Z) : bool :=
  match v with
  | Some z => negb (z =? 0)
  | None => false
  end.

(** [Date.now() - this.startTime]; [null] converts to [0]. *)
Definition since (now : Z) (start : option Z) : Z := now - default 0 start.

(** [Math.floor((Date.now() - this.startTime) / 1000)]. *)
Definition elapsed (now : Z) (start : option Z) : Z := since now start / 1000.

Section Setters.
Variable t : Timer.

Definition with_duration (v : Z) : Timer :=
  mkTimer (id t) (name t) v (originalDuration t) (remaining t) (isRunning t)
    (maxConnectionsAllowed t) (maxTimersAllowed t) (startTime t) (message t)
    (backgroundColor t) (textColor t) (fontSize t) (isFlashing t)
    (connectedDevices t) (interval t) (controllerId t) (timerView t).

Definition with_originalDuration (v : Z) : Timer :=
  mkTimer (id t) (name t) (duration t) v (remaining t) (isRunning t)
    (maxConnectionsAllowed t) (maxTimersAllowed t) (startTime t) (message t)
    (backgroundColor t) (textColor t) (fontSize t) (isFlashing t)
    (connectedDevices t) (interval t) (controllerId t) (timerView t).

Definition with_remaining (v : Z) : Timer :=
  mkTimer (id t) (name t) (duration t) (originalDuration t) v (isRunning t)
    (maxConnectionsAllowed t) (maxTimersAllowed t) (startTime t) (message t)
    (backgroundColor t) (textColor t) (fontSize t) (isFlashing t)
    (connectedDevices t) (interval t) (controllerId t) (timerView t).

Definition with_isRunning (v : bool) : Timer :=
  mkTimer (id t) (name t) (duration t) (originalDuration t) (remaining t) v
    (maxConnectionsAllowed t) (maxTimersAllowed t) (startTime t) (message t)
    (backgroundColor t) (textColor t) (fontSize t) (isFlashing t)
    (connectedDevices t) (interval t) (controllerId t) (timerView t).

Definition with_maxConnectionsAllowed (v : Z) : Timer :=
  mkTimer (id t) (name t) (duration t) (originalDuration t) (remaining t)
    (isRunning t) v (maxTimersAllowed t) (startTime t) (message t)
    (backgroundColor t) (textColor t) (fontSize t) (isFlashing t)
    (connectedDevices t) (interval t) (controllerId t) (timerView t).

Definition with_startTime (v : option Z) : Timer :=
  mkTimer (id t) (name t) (duration t) (originalDuration t) (remaining t)
    (isRunning t) (maxConnectionsAllowed t) (maxTimersAllowed t) v (message t)
    (backgroundColor t) (textColor t) (fontSize t) (isFlashing t)
    (connectedDevices t) (interval t) (controllerId t) (timerView t).

Definition with_message (v : string) : Timer :=
  mkTimer (id t) (name t) (duration t) (originalDuration t) (remaining t)
    (isRunning t) (maxConnectionsAllowed t) (maxTimersAllowed t) (startTime t) v
    (backgroundColor t) (textColor t) (fontSize t) (isFlashing t)
    (connectedDevices t) (interval t) (controllerId t) (timerView t).

Definition with_styling (bg tc fs tv : string) : Timer :=
  mkTimer (id t) (name t) (duration t) (originalDuration t) (remaining t)
    (isRunning t) (maxConnectionsAllowed t) (maxTimersAllowed t) (startTime t)
    (message t) bg tc fs (isFlashing t)
    (connectedDevices t) (interval t) (controllerId t) tv.

Definition with_isFlashing (v : bool) : Timer :=
  mkTimer (id t) (name t) (duration t) (originalDuration t) (remaining t)
    (isRunning t) (maxConnectionsAllowed t) (maxTimersAllowed t) (startTime t)
    (message t) (backgroundColor t) (textColor t) (fontSize t) v
    (connectedDevices t) (interval t) (controllerId t) (timerView t).

Definition with_connectedDevices (v : list string) : Timer :=
  mkTimer (id t) (name t) (duration t) (originalDuration t) (remaining t)
    (isRunning t) (maxConnectionsAllowed t) (maxTimersAllowed t) (startTime t)
    (message t) (backgroundColor t) (textColor t) (fontSize t) (isFlashing t)
    v (interval t) (controllerId t) (timerView t).

Definition with_interval (v : bool) : Timer :=
  mkTimer (id t) (name t) (duration t) (originalDuration t) (remaining t)
    (isRunning t) (maxConnectionsAllowed t) (maxTimersAllowed t) (startTime t)
    (message t) (backgroundColor t) (textColor t) (fontSize t) (isFlashing t)
    (connectedDevices t) v (controllerId t) (timerView t).

Definition with_controllerId (v : option string) : Timer :=
  mkTimer (id t) (name t) (duration t) (originalDuration t) (remaining t)
    (isRunning t) (maxConnectionsAllowed t) (maxTimersAllowed t) (startTime t)
    (message t) (backgroundColor t) (textColor t) (fontSize t) (isFlashing t)
    (connectedDevices t) (interval t) v (timerView t).
End Setters.

Arguments with_duration _ _ /.
Arguments with_originalDuration _ _ /.
Arguments with_remaining _ _ /.
Arguments with_isRunning _ _ /.
Arguments with_maxConnectionsAllowed _ _ /.
Arguments with_startTime _ _ /.
Arguments with_message _ _ /.
Arguments with_styling _ _ _ _ _ /.
Arguments with_isFlashing _ _ /.
Arguments with_connectedDevices _ _ /.
Arguments with_interval _ _ /.
Arguments with_controllerId _ _ /.

(** [new Timer(id, name, duration, maxConnectionsAllowed, maxTimersAllowed)];
    an absent argument is [None]. *)
Definition newTimer (i n : string) (d : Z) (maxC maxT : option Z) : Timer :=
  mkTimer i n d d d false (default 4 maxC) (default 3 maxT) None EmptyString
    "#1f2937" "#ffffff" "text-6xl" false [] false None "normal".

Definition getState (t : Timer) : TimerState :=
  mkTimerState (id t) (name t) (duration t) (remaining t) (isRunning t)
    (message t) (backgroundColor t) (textColor t) (fontSize t) (isFlashing t)
    (length (connectedDevices t))
    (if decide (timerView t = EmptyString) then "normal" else timerView t).

Section Methods.
(** [io.sockets.sockets] and the reading of [Date.now()]. *)
Variable io : gset string.
Variable now : Z.

(** The [forEach] of [update]: a live device is sent the state the timer
    has at that moment, a device whose socket is gone is deleted from
    [connectedDevices].  Only the element being visited is ever deleted,
    so the loop visits the elements the set had when it began. *)
Fixpoint broadcast (pending : list string) (t : Timer) : Timer * list Emit :=
  match pending with
  | [] => (t, [])
  | deviceId :: rest =>
      if decide (deviceId ∈ io) then
        let '(t', out) := broadcast rest t in
        (t', (deviceId, TimerUpdate (getState t)) :: out)
      else
        broadcast rest
          (with_connectedDevices t (set_delete deviceId (connectedDevices t)))
  end.

Definition update (t : Timer) : Timer * list Emit :=
  let t1 :=
    if isRunning t && truthy (startTime t)
    then with_remaining t (duration t - elapsed now (startTime t))
    else t in
  broadcast (connectedDevices t1) t1.

Definition clearTick (t : Timer) : Timer :=
  if interval t then with_interval t false else t.

Definition start (t : Timer) : Timer * list Emit :=
  if negb (isRunning t) && (0 <? remaining t) then
    update (with_interval (with_startTime (with_isRunning t true) (Some now)) true)
  else (t, []).

Definition pause (t : Timer) : Timer * list Emit :=
  if isRunning t then
    let t1 := with_isRunning t false in
    let t2 := with_remaining t1 (duration t1 - elapsed now (startTime t1)) in
    let t3 := with_duration t2 (Z.abs (remaining t2)) in
    update (clearTick t3)
  else (t, []).

Definition reset (t : Timer) : Timer * list Emit :=
  let t1 := with_isRunning t false in
  let t2 := with_duration t1 (originalDuration t1) in
  let t3 := with_remaining t2 (originalDuration t2) in
  let t4 := with_startTime t3 None in
  update (clearTick t4).

Definition setDuration (d : Z) (t : Timer) : Timer * list Emit :=
  let t1 := with_duration t d in
  let t2 := with_originalDuration t1 d in
  let t3 := with_remaining t2 d in
  let t4 := with_isRunning t3 false in
  let t5 := with_startTime t4 None in
  update (clearTick t5).

Definition adjustTime (seconds : Z) (t : Timer) : Timer * list Emit :=
  let newDuration := Z.max 0 (duration t + seconds) in
  if isRunning t then
    let e := elapsed now (startTime t) in
    let t1 := with_duration t newDuration in
    let t2 := with_remaining t1 (Z.max 0 (duration t1 - e)) in
    let t3 :=
      if remaining t2 <=? 0
      then with_startTime (clearTick (with_isRunning t2 false)) None
      else t2 in
    update t3
  else setDuration newDuration t.

Definition addDevice (deviceId : string) (t : Timer) : bool * Timer * list Emit :=
  if Z.of_nat (length (connectedDevices t)) <? maxConnectionsAllowed t then
    let '(t', out) :=
      update (with_connectedDevices t (set_add deviceId (connectedDevices t))) in
    (true, t', out)
  else (false, t, []).

Definition removeDevice (deviceId : string) (t : Timer) : Timer * list Emit :=
  update (with_connectedDevices t (set_delete deviceId (connectedDevices t))).

Definition updateMessage (m : string) (t : Timer) : Timer * list Emit :=
  update (with_message t m).

Definition clearMessage (t : Timer) : Timer * list Emit :=
  update (with_message t EmptyString).

Definition updateStyling (s : Styling) (t : Timer) : Timer * list Emit :=
  update (with_styling t
            (or_else (sty_backgroundColor s) (backgroundColor t))
            (or_else (sty_textColor s) (textColor t))
            (or_else (sty_fontSize s) (fontSize t))
            (or_else (sty_timerView s) (timerView t))).

Definition toggleFlash (b : bool) (t : Timer) : Timer * list Emit :=
  update (with_isFlashing t b).
End Methods.

(** ** The registries and the event handlers *)

Record State := mkState {
  timers : gmap string Timer;
  deviceToTimer : gmap string string;
  controllerTimers : gmap string (list string);
  controllerToSocket : gmap string (list string);
  sockets : gset string
}.

Definition initial : State := mkState ∅ ∅ ∅ ∅ ∅.

Definition with_timers (st : State) (v : gmap string Timer) : State :=
  mkState v (deviceToTimer st) (controllerTimers st) (controllerToSocket st)
    (sockets st).

Definition with_deviceToTimer (st : State) (v : gmap string string) : State :=
  mkState (timers st) v (controllerTimers st) (controllerToSocket st)
    (sockets st).

Definition with_controllerTimers (st : State) (v : gmap string (list string)) : State :=
  mkState (timers st) (deviceToTimer st) v (controllerToSocket st) (sockets st).

Definition with_controllerToSocket (st : State) (v : gmap string (list string)) : State :=
  mkState (timers st) (deviceToTimer st) (controllerTimers st) v (sockets st).

Definition with_sockets (st : State) (v : gset string) : State :=
  mkState (timers st) (deviceToTimer st) (controllerTimers st)
    (controllerToSocket st) v.

Arguments with_timers _ _ /.
Arguments with_deviceToTimer _ _ /.
Arguments with_controllerTimers _ _ /.
Arguments with_controllerToSocket _ _ /.
Arguments with_sockets _ _ /.

(** [map.get(k) || new Set()]. *)
Definition get_set (m : gmap string (list string)) (k : string) : list string :=
  default [] (m !! k).

(** [if (!map.has(k)) map.set(k, new Set()); map.get(k).add(x)]. *)
Definition add_to (m : gmap string (list string)) (k x : string)
  : gmap string (list string) :=
  <[k := set_add x (get_set m k)]> m.

Definition summary (t : Timer) : Summary :=
  mkSummary (id t) (name t) (duration t) (length (connectedDevices t)).

Definition getTimersForController (st : State) (ctrl : string) : list Summary :=
  omap (λ i, summary <$> timers st !! i) (get_set (controllerTimers st) ctrl).

(** The messages a socket can send. *)
Inductive Command :=
| JoinTimer (timerId ctrl : string) (maxC : option Z)
| ViewTimer (timerId ctrl : string) (maxC : option Z)
| CreateTimer (nm : string) (dur : Z) (maxC maxT : option Z) (ctrl : string)
    (styling : option Styling)
| GetTimers (ctrl : string)
| DeleteTimer (timerId ctrl : string)
| SetTimer (timerId : string) (dur : Z) (ctrl : string)
| StartTimer (timerId ctrl : string)
| PauseTimer (timerId ctrl : string)
| ResetTimer (timerId ctrl : string)
| AdjustTimer (timerId : string) (seconds : Z) (ctrl : string)
| UpdateMessage (timerId msg ctrl : string)
| ClearMessage (timerId ctrl : string)
| UpdateStyling (timerId : string) (styling : Styling) (ctrl : string)
| ToggleFlash (timerId : string) (flashing : bool) (ctrl : string).

Section Handlers.
(** The state when the handler starts, [socket.id], the reading of
    [Date.now()] and the string [generateId()] returns. *)
Variable st : State.
Variable socketId : string.
Variable now : Z.
Variable genId : string.

(** The [limit-exceeded] notifications of a rejected join: one to each
    live socket registered under the timer's controller. *)
Definition notifyController (timerId : string) (owner : option string) (limit : Z)
  : list Emit :=
  let controllerSocketIds :=
    match owner with
    | Some c => get_set (controllerToSocket st) c
    | None => []
    end in
  omap (λ s, if decide (s ∈ sockets st)
             then Some (s, LimitExceeded (Some timerId) Viewers limit)
             else None) controllerSocketIds.

(** The common body of [join-timer] and [view-timer]; [joining] tells
    them apart. *)
Definition joinOrView (joining : bool) (timerId ctrl : string) (maxC : option Z)
  : State * list Emit :=
  if decide (ctrl = EmptyString) then (st, []) else
  match timers st !! timerId with
  | Some timer =>
      let timer1 :=
        with_maxConnectionsAllowed timer (default (maxConnectionsAllowed timer) maxC) in
      let '(wasAdded, timer2, out) := addDevice (sockets st) now socketId timer1 in
      let st1 := with_timers st (<[timerId := timer2]> (timers st)) in
      if wasAdded then
        let st2 := with_deviceToTimer st1 (<[socketId := timerId]> (deviceToTimer st1)) in
        let st3 :=
          with_controllerToSocket st2 (add_to (controllerToSocket st2) ctrl socketId) in
        (st3,
         out ++ [(socketId, TimerJoined (getState timer2))]
             ++ (if joining && bool_decide (controllerId timer2 = Some ctrl)
                 then [(socketId, TimerList (getTimersForController st3 ctrl))]
                 else []))
      else
        (st1,
         (socketId, TimerFull timerId socketId (negb joining))
           :: notifyController timerId (controllerId timer2)
                (if joining then maxConnectionsAllowed timer2
                 else maxConnectionsAllowed timer2 - 1))
  | None => (st, [(socketId, TimerNotFound timerId)])
  end.

Definition createTimer (nm : string) (dur : Z) (maxC maxT : option Z)
    (ctrl : string) (styling : option Styling) : State * list Emit :=
  if decide (ctrl = EmptyString) then (st, []) else
  let currentTimers := get_set (controllerTimers st) ctrl in
  if default 3 maxT <=? Z.of_nat (length currentTimers) then
    (st, [(socketId, LimitExceeded None Timers (default 3 maxT))])
  else
    let timerId := genId in
    let timer :=
      newTimer timerId nm dur (Some (default 4 maxC)) (Some (default 3 maxT)) in
    let timer1 := with_controllerId timer (Some ctrl) in
    let timer2 :=
      match styling with
      | Some s =>
          with_styling timer1
            (or_else (sty_backgroundColor s) (backgroundColor timer1))
            (or_else (sty_textColor s) (textColor timer1))
            (or_else (sty_fontSize s) (fontSize timer1))
            (or_else (sty_timerView s) "normal")
      | None => timer1
      end in
    let '(_, timer3, out) := addDevice (sockets st) now socketId timer2 in
    let st1 := with_timers st (<[timerId := timer3]> (timers st)) in
    let st2 := with_controllerTimers st1 (add_to (controllerTimers st1) ctrl timerId) in
    let st3 := with_deviceToTimer st2 (<[socketId := timerId]> (deviceToTimer st2)) in
    let st4 :=
      with_controllerToSocket st3 (add_to (controllerToSocket st3) ctrl socketId) in
    (st4,
     out ++ [(socketId, TimerList (getTimersForController st4 ctrl));
             (socketId, TimerCreated (getState timer3))]).

Definition getTimers (ctrl : string) : State * list Emit :=
  if decide (ctrl = EmptyString) then (st, []) else
  (st, [(socketId, TimerList (getTimersForController st ctrl))]).

Definition deleteTimer (timerId ctrl : string) : State * list Emit :=
  if decide (ctrl = EmptyString) then (st, []) else
  match timers st !! timerId with
  | Some timer =>
      if decide (controllerId timer = Some ctrl) then
        let out :=
          omap (λ d, if decide (d ∈ sockets st)
                     then Some (d, TimerDeleted timerId) else None)
            (connectedDevices timer) in
        let st1 :=
          with_deviceToTimer st
            (foldr delete (deviceToTimer st) (connectedDevices timer)) in
        let st2 := with_timers st1 (delete timerId (timers st1)) in
        let st3 :=
          with_controllerTimers st2
            (alter (set_delete timerId) ctrl (controllerTimers st2)) in
        (st3, out ++ [(socketId, TimerList (getTimersForController st3 ctrl))])
      else (st, [])
  | None => (st, [])
  end.

(** The common body of the timer controls: the method runs only when the
    timer exists and the supplied controller owns it, and is followed by
    the controller's timer list. *)
Definition control (timerId ctrl : string) (method : Timer → Timer * list Emit)
  : State * list Emit :=
  if decide (ctrl = EmptyString) then (st, []) else
  match timers st !! timerId with
  | Some timer =>
      if decide (controllerId timer = Some ctrl) then
        let '(timer', out) := method timer in
        let st1 := with_timers st (<[timerId := timer']> (timers st)) in
        (st1, out ++ [(socketId, TimerList (getTimersForController st1 ctrl))])
      else (st, [])
  | None => (st, [])
  end.

Definition handle (c : Command) : State * list Emit :=
  match c with
  | JoinTimer timerId ctrl maxC => joinOrView true timerId ctrl maxC
  | ViewTimer timerId ctrl maxC => joinOrView false timerId ctrl maxC
  | CreateTimer nm dur maxC maxT ctrl styling =>
      createTimer nm dur maxC maxT ctrl styling
  | GetTimers ctrl => getTimers ctrl
  | DeleteTimer timerId ctrl => deleteTimer timerId ctrl
  | SetTimer timerId dur ctrl =>
      control timerId ctrl (setDuration (sockets st) now dur)
  | StartTimer timerId ctrl => control timerId ctrl (start (sockets st) now)
  | PauseTimer timerId ctrl => control timerId ctrl (pause (sockets st) now)
  | ResetTimer timerId ctrl => control timerId ctrl (reset (sockets st) now)
  | AdjustTimer timerId seconds ctrl =>
      control timerId ctrl (adjustTime (sockets st) now seconds)
  | UpdateMessage timerId msg ctrl =>
      control timerId ctrl (updateMessage (sockets st) now msg)
  | ClearMessage timerId ctrl =>
      control timerId ctrl (clearMessage (sockets st) now)
  | UpdateStyling timerId styling ctrl =>
      control timerId ctrl (updateStyling (sockets st) now styling)
  | ToggleFlash timerId flashing ctrl =>
      control timerId ctrl (toggleFlash (sockets st) now flashing)
  end.

(** Socket.IO removes the socket from [io.sockets.sockets] before it
    fires [disconnect]; the handler then runs on the remaining state. *)
Definition disconnect : State * list Emit :=
  let st0 := with_sockets st (sockets st ∖ {[socketId]}) in
  let '(st2, out) :=
    match deviceToTimer st0 !! socketId with
    | Some timerId =>
        if decide (timerId = EmptyString) then (st0, []) else
        let '(st1, out) :=
          match timers st0 !! timerId with
          | Some timer =>
              let '(timer', out) := removeDevice (sockets st0) now socketId timer in
              (with_timers st0 (<[timerId := timer']> (timers st0)), out)
          | None => (st0, [])
          end in
        (with_deviceToTimer st1 (delete socketId (deviceToTimer st1)), out)
    | None => (st0, [])
    end in
  (with_controllerToSocket st2
     (omap (λ socketIds,
              if set_has socketId socketIds then
                let socketIds' := set_delete socketId socketIds in
                if decide (length socketIds' = 0%nat) then None else Some socketIds'
              else Some socketIds)
        (controllerToSocket st2)),
   out).

(** One firing of the interval callback of the timer stored under
    [timerId]; nothing fires once the interval is cleared. *)
Definition tick (timerId : string) : State * list Emit :=
  match timers st !! timerId with
  | Some timer =>
      if interval timer then
        let '(timer', out) := update (sockets st) now timer in
        (with_timers st (<[timerId := timer']> (timers st)), out)
      else (st, [])
  | None => (st, [])
  end.
End Handlers.

(** What the event loop runs, one at a time and to completion. *)
Inductive Event :=
| Connect (socketId : string)
| Receive (socketId : string) (now : Z) (genId : string) (c : Command)
| Disconnect (socketId : string) (now : Z)
| Tick (timerId : string) (now : Z).

Definition step (st : State) (e : Event) : State * list Emit :=
  match e with
  | Connect s => (with_sockets st ({[s]} ∪ sockets st), [])
  | Receive s now genId c => handle st s now genId c
  | Disconnect s now => disconnect st s now
  | Tick timerId now => tick st now timerId
  end.

Fixpoint run (st : State) (es : list Event) : State :=
  match es with
  | [] => st
  | e :: es' => run (step st e).1 es'
  end.

(** ** Executions *)

(** What the environment can do in a state: a socket identifier connects
    once, only a connected socket sends commands or disconnects, and
    [generateId] returns an identifier no registered timer has. *)
Definition enabled (st : State) (e : Event) : bool :=
  match e with
  | Connect s => bool_decide (s ∉ sockets st)
  | Receive s _ genId (CreateTimer _ _ _ _ _ _) =>
      bool_decide (s ∈ sockets st) && bool_decide (timers st !! genId = None)
  | Receive s _ _ _ => bool_decide (s ∈ sockets st)
  | Disconnect s _ => bool_decide (s ∈ sockets st)
  | Tick _ _ => true
  end.

(** The states the server reaches from [initial] through events that
    satisfy [ok]. *)
Inductive reachable_by (ok : State → Event → Prop) : State → Prop :=
| reachable_initial : reachable_by ok initial
| reachable_step st e :
    reachable_by ok st → ok st e → reachable_by ok (step st e).1.

Definition reachable : State → Prop :=
  reachable_by (λ st e, enabled st e = true).

(** Every event of the series is enabled when its turn comes. *)
Fixpoint admissible (st : State) (es : list Event) : bool :=
  match es with
  | [] => true
  | e :: es' => enabled st e && admissible (step st e).1 es'
  end.

(** ** Predicates used by the statements *)

(** Every registered timer has at most [maxConnectionsAllowed] connected
    devices. *)
Definition capacity_invariant (st : State) : Prop :=
  ∀ timerId t, timers st !! timerId = Some t →
    Z.of_nat (length (connectedDevices t)) <= maxConnectionsAllowed t.

(** The timer registered under [timerId], if any, has at most
    [maxConnectionsAllowed] connected devices. *)
Definition within_capacity (timerId : string) (st : State) : Prop :=
  ∀ t, timers st !! timerId = Some t →
    Z.of_nat (length (connectedDevices t)) <= maxConnectionsAllowed t.

(** The event does not set the capacity of the timer [timerId] below the
    number of devices connected to it: if it is a join or view that names
    [timerId] and supplies a capacity, the capacity is at least the
    connected count of that timer, and if it creates the timer under
    [timerId], the capacity is not negative.  Events that name other timers
    are unconstrained. *)
Definition respects_capacity (timerId : string) (st : State) (e : Event) : Prop :=
  match e with
  | Receive _ _ _ (JoinTimer i _ (Some m))
  | Receive _ _ _ (ViewTimer i _ (Some m)) =>
      i = timerId →
      ∀ t, timers st !! timerId = Some t →
        Z.of_nat (length (connectedDevices t)) <= m
  | Receive _ _ genId (CreateTimer _ _ maxC _ _ _) =>
      genId = timerId → 0 <= default 4 maxC
  | _ => True
  end.

(** The sets of [controllerTimers] name registered timers of that
    controller. *)
Definition ownership_invariant (st : State) : Prop :=
  ∀ c timerId, timerId ∈ get_set (controllerTimers st) c →
    ∃ t, timers st !! timerId = Some t ∧ controllerId t = Some c.

(** The sockets registered under a controller are live. *)
Definition tracked_live (st : State) : Prop :=
  ∀ c s, s ∈ get_set (controllerToSocket st) c → s ∈ sockets st.

(** The timer and the controller identity a mutating command names. *)
Definition target (c : Command) : option (string * string) :=
  match c with
  | DeleteTimer timerId ctrl
  | SetTimer timerId _ ctrl
  | StartTimer timerId ctrl
  | PauseTimer timerId ctrl
  | ResetTimer timerId ctrl
  | AdjustTimer timerId _ ctrl
  | UpdateMessage timerId _ ctrl
  | ClearMessage timerId ctrl
  | UpdateStyling timerId _ ctrl
  | ToggleFlash timerId _ ctrl => Some (timerId, ctrl)
  | JoinTimer _ _ _ | ViewTimer _ _ _ | CreateTimer _ _ _ _ _ _ | GetTimers _ => None
  end.

(** The commands through which the timer [timerId], running as [t], can
    stop: pause, reset, set, delete, and an adjustment that leaves no time. *)
Definition stopping (timerId : string) (t : Timer) (e : Event) : Prop :=
  match e with
  | Receive _ now _ c =>
      match c with
      | PauseTimer i ctrl | ResetTimer i ctrl | SetTimer i _ ctrl
      | DeleteTimer i ctrl =>
          i = timerId ∧ controllerId t = Some ctrl
      | AdjustTimer i seconds ctrl =>
          i = timerId ∧ controllerId t = Some ctrl ∧
          Z.max 0 (duration t + seconds) - elapsed now (startTime t) <= 0
      | _ => False
      end
  | _ => False
  end.

(** The methods a controller invokes between one [setDuration] and the
    next. *)
Inductive Call :=
| CStart
| CPause
| CReset
| CAdjust (seconds : Z)
| CMessage (m : string)
| CClearMessage
| CStyling (s : Styling)
| CFlash (b : bool).

Definition call (io : gset string) (now : Z) (c : Call) (t : Timer)
  : Timer * list Emit :=
  match c with
  | CStart => start io now t
  | CPause => pause io now t
  | CReset => reset io now t
  | CAdjust seconds => adjustTime io now seconds t
  | CMessage m => updateMessage io now m t
  | CClearMessage => clearMessage io now t
  | CStyling s => updateStyling io now s t
  | CFlash b => toggleFlash io now b t
  end.



(** The timer [update] works on before it broadcasts: [remaining] is
    recomputed when the timer runs. *)
Definition recomputed (now : Z) (t : Timer) : Timer :=
  if isRunning t && truthy (startTime t)
  then with_remaining t (duration t - elapsed now (startTime t))
  else t.

(** What no method but [addDevice] and the capacity assignment of the join
    handlers changes: the identity, the owner and the capacity stay, and no
    device is added. *)
Definition stable (t t' : Timer) : Prop :=
  id t' = id t ∧ controllerId t' = controllerId t ∧
  maxConnectionsAllowed t' = maxConnectionsAllowed t ∧
  (length (connectedDevices t') ≤ length (connectedDevices t))%nat ∧
  ∀ d, d ∈ connectedDevices t' → d ∈ connectedDevices t.

(** How one event changes the registry [timers] and the index
    [controllerTimers]: not at all; one timer is replaced by the result of
    a method that is [stable]; one timer gets the capacity of a join or view
    and the result of [addDevice]; a timer is created under the generated
    identifier; a timer is deleted by its controller. *)
Inductive Change (st : State) (e : Event) (st' : State) : Prop :=
| change_none :
    timers st' = timers st →
    controllerTimers st' = controllerTimers st →
    Change st e st'
| change_method timerId t t' :
    timers st !! timerId = Some t →
    stable t t' →
    timers st' = <[timerId := t']> (timers st) →
    controllerTimers st' = controllerTimers st →
    Change st e st'
| change_join socketId now genId (joining : bool) timerId ctrl maxC t :
    e = Receive socketId now genId
          (if joining then JoinTimer timerId ctrl maxC
           else ViewTimer timerId ctrl maxC) →
    timers st !! timerId = Some t →
    timers st'
    = <[timerId := (addDevice (sockets st) now socketId
                      (with_maxConnectionsAllowed t
                         (default (maxConnectionsAllowed t) maxC))).1.2]>
        (timers st) →
    controllerTimers st' = controllerTimers st →
    Change st e st'
| change_create socketId now genId nm dur maxC maxT ctrl styling t0 :
    e = Receive socketId now genId (CreateTimer nm dur maxC maxT ctrl styling) →
    controllerId t0 = Some ctrl →
    connectedDevices t0 = [] →
    maxConnectionsAllowed t0 = default 4 maxC →
    timers st'
    = <[genId := (addDevice (sockets st) now socketId t0).1.2]> (timers st) →
    controllerTimers st' = add_to (controllerTimers st) ctrl genId →
    Change st e st'
| change_delete socketId now genId timerId ctrl t :
    e = Receive socketId now genId (DeleteTimer timerId ctrl) →
    timers st !! timerId = Some t →
    controllerId t = Some ctrl →
    timers st' = delete timerId (timers st) →
    controllerTimers st' = alter (set_delete timerId) ctrl (controllerTimers st) →
    Change st e st'.

(** ** Further definitions: the rest of the server *)

(** The timer [create-timer] builds (constructor, owner, styling) before it
    connects the creating socket. *)
Definition createdTimer (genId nm : string) (dur : Z) (maxC maxT : option Z)
    (ctrl : string) (styling : option Styling) : Timer :=
  let timer :=
    newTimer genId nm dur (Some (default 4 maxC)) (Some (default 3 maxT)) in
  let timer1 := with_controllerId timer (Some ctrl) in
  match styling with
  | Some s =>
      with_styling timer1
        (or_else (sty_backgroundColor s) (backgroundColor timer1))
        (or_else (sty_textColor s) (textColor timer1))
        (or_else (sty_fontSize s) (fontSize timer1))
        (or_else (sty_timerView s) "normal")
  | None => timer1
  end.

(** What one event can make of a registered timer: the result of one of
    the controller's methods, of [setDuration], of a bare [update] (the
    tick), of [removeDevice] (the disconnect), or of the capacity
    assignment and [addDevice] of a join or view. *)
Inductive evolves (io : gset string) (t t' : Timer) : Prop :=
| evolves_call now c : t' = (call io now c t).1 → evolves io t t'
| evolves_set now d : t' = (setDuration io now d t).1 → evolves io t t'
| evolves_update now : t' = (update io now t).1 → evolves io t t'
| evolves_remove now d : t' = (removeDevice io now d t).1 → evolves io t t'
| evolves_join now d m :
    t' = (addDevice io now d (with_maxConnectionsAllowed t m)).1.2 →
    evolves io t t'.

(** The [timer-update] fan-out of a timer: its state to each connected
    device, in order. *)
Definition fanOut (t : Timer) : list Emit :=
  map (λ d, (d, TimerUpdate (getState t))) (connectedDevices t).

(** The interval handle is held exactly while the timer runs, and a running
    timer has a start time. *)
Definition ticking (t : Timer) : Prop :=
  interval t = isRunning t ∧ (isRunning t = true → is_Some (startTime t)).

(** No styling field is the empty string. *)
Definition styled (t : Timer) : Prop :=
  backgroundColor t ≠ EmptyString ∧ textColor t ≠ EmptyString ∧
  fontSize t ≠ EmptyString ∧ timerView t ≠ EmptyString.

(** The controller identity a command carries. *)
Definition controllerOf (c : Command) : string :=
  match c with
  | JoinTimer _ ctrl _ | ViewTimer _ ctrl _ | CreateTimer _ _ _ _ ctrl _
  | GetTimers ctrl | DeleteTimer _ ctrl | SetTimer _ _ ctrl
  | StartTimer _ ctrl | PauseTimer _ ctrl | ResetTimer _ ctrl
  | AdjustTimer _ _ ctrl | UpdateMessage _ _ ctrl | ClearMessage _ ctrl
  | UpdateStyling _ _ ctrl | ToggleFlash _ _ ctrl => ctrl
  end.

(** No [create-timer] supplies a timer quota above [limit]. *)
Definition quota_within (limit : Z) (st : State) (e : Event) : Prop :=
  enabled st e = true ∧
  match e with
  | Receive _ _ _ (CreateTimer _ _ _ maxT _ _) => default 3 maxT <= limit
  | _ => True
  end.

(** The event is enabled and, if it creates a timer, [generateId] returns
    a non-empty string. *)
Definition named (st : State) (e : Event) : Prop :=
  enabled st e = true ∧
  match e with
  | Receive _ _ genId (CreateTimer _ _ _ _ _ _) => genId ≠ EmptyString
  | _ => True
  end.

(** The counts reported by the [/health] endpoint: [timers.size] and
    [Array.from(deviceToTimer.keys()).length]. *)
Definition health (st : State) : nat * nat :=
  (size (timers st), size (deviceToTimer st)).

(** The helper [ensureControllerConnected(socket, timerId)]: the mapping is
    written whatever [addDevice] returns. *)
Definition ensureControllerConnected (st : State) (socketId : string) (now : Z)
    (timerId : string) : State * list Emit :=
  match timers st !! timerId with
  | Some timer =>
      if negb (set_has socketId (connectedDevices timer)) then
        let '(_, timer', out) := addDevice (sockets st) now socketId timer in
        let st1 := with_timers st (<[timerId := timer']> (timers st)) in
        (with_deviceToTimer st1 (<[socketId := timerId]> (deviceToTimer st1)), out)
      else (st, [])
  | None => (st, [])
  end.

(** ** The broadcast loop and [update] *)

Lemma set_delete_elem x y l : y ∈ set_delete x l ↔ y ≠ x ∧ y ∈ l.
Proof. unfold set_delete. by rewrite list_elem_of_filter. Qed.

Lemma set_delete_length x l : (length (set_delete x l) ≤ length l)%nat.
Proof. unfold set_delete. apply length_filter. Qed.

Lemma set_add_elem x y l : y ∈ set_add x l ↔ y = x ∨ y ∈ l.
Proof.
  unfold set_add, set_has. case_bool_decide as Hx.
  - split; [tauto | intros [-> | ?]; assumption].
  - rewrite elem_of_app, list_elem_of_singleton. tauto.
Qed.

Lemma set_add_length x l : (length (set_add x l) ≤ S (length l))%nat.
Proof.
  unfold set_add. destruct (set_has x l); [lia |].
  rewrite length_app. simpl. lia.
Qed.

Lemma filter_all (P : string → Prop) `{∀ x, Decision (P x)} (l : list string) :
  (∀ x, x ∈ l → P x) → filter P l = l.
Proof.
  induction l as [|x l IHl]; intros HP; [done |].
  rewrite filter_cons_True by (apply HP; left).
  rewrite IHl; [done |]. intros y Hy. apply HP. by right.
Qed.

Lemma filter_ext_in (P Q : string → Prop)
    `{∀ x, Decision (P x)} `{∀ x, Decision (Q x)} (l : list string) :
  (∀ x, x ∈ l → P x ↔ Q x) → filter P l = filter Q l.
Proof.
  induction l as [|x l IHl]; intros HPQ; [done |].
  rewrite !filter_cons.
  destruct (decide (P x)) as [HP | HP], (decide (Q x)) as [HQ | HQ].
  - f_equal. apply IHl. intros y Hy. apply HPQ. by right.
  - exfalso. apply HQ, HPQ; [left | done].
  - exfalso. apply HP, HPQ; [left | done].
  - apply IHl. intros y Hy. apply HPQ. by right.
Qed.

(** The loop changes no field but [connectedDevices]. *)
Lemma broadcast_fields io pending t :
  (broadcast io pending t).1
  = with_connectedDevices t (connectedDevices (broadcast io pending t).1).
Proof.
  revert t. induction pending as [|d rest IH]; intros t; simpl.
  - by destruct t.
  - case_decide.
    + specialize (IH t). destruct (broadcast io rest t) as [t' out]. exact IH.
    + rewrite (IH _) at 1. reflexivity.
Qed.

(** It deletes exactly the visited devices whose socket is gone. *)
Lemma broadcast_devices io pending t :
  connectedDevices (broadcast io pending t).1
  = filter (λ y, y ∉ pending ∨ y ∈ io) (connectedDevices t).
Proof.
  revert t. induction pending as [|d rest IH]; intros t; simpl.
  - symmetry. apply filter_all. intros x _. left. apply not_elem_of_nil.
  - case_decide as Hd.
    + specialize (IH t). destruct (broadcast io rest t) as [t' out]. simpl in *.
      rewrite IH. apply list_filter_iff. intros y.
      rewrite not_elem_of_cons. split; [| tauto].
      intros [Hy | Hy]; [| tauto].
      destruct (decide (y = d)) as [-> | Hne]; tauto.
    + rewrite IH. simpl. unfold set_delete. rewrite list_filter_filter.
      apply list_filter_iff. intros y. rewrite not_elem_of_cons. split.
      * tauto.
      * intros [[Hne Hy] | Hy]; [tauto |].
        split; [tauto |]. intros ->. contradiction.
Qed.

(** When every visited socket is live nothing is deleted and each is sent
    the state. *)
Lemma broadcast_live io pending t :
  (∀ d, d ∈ pending → d ∈ io) →
  broadcast io pending t = (t, map (λ d, (d, TimerUpdate (getState t))) pending).
Proof.
  induction pending as [|d rest IH]; intros Hlive; simpl; [done |].
  rewrite decide_True by (apply Hlive; left).
  rewrite IH; [done |]. intros x Hx. apply Hlive. by right.
Qed.

(** Every emission of the loop is a [timer-update] to a visited live socket
    that carries the timer's countdown fields. *)
Lemma broadcast_out io pending t :
  Forall (λ e : Emit,
            e.1 ∈ pending ∧ e.1 ∈ io ∧
            ∃ s, e.2 = TimerUpdate s ∧ ts_remaining s = remaining t ∧
                 ts_duration s = duration t ∧ ts_isRunning s = isRunning t)
    (broadcast io pending t).2.
Proof.
  revert t. induction pending as [|d rest IH]; intros t; simpl; [constructor |].
  case_decide as Hd.
  - specialize (IH t). destruct (broadcast io rest t) as [t' out]. simpl in *.
    constructor.
    + simpl. split; [left | split; [done | eauto]].
    + eapply Forall_impl; [exact IH |]. intros e (? & ? & ?).
      split; [by right | done].
  - eapply Forall_impl; [apply IH |]. intros e (? & ? & s & ? & ? & ? & ?).
    split; [by right | split; [done |]]. exists s. done.
Qed.

Lemma broadcast_targets io pending t :
  (broadcast io pending t).2.*1 = filter (λ d, d ∈ io) pending.
Proof.
  revert t. induction pending as [|d rest IH]; intros t; simpl; [done |].
  case_decide as Hd.
  - specialize (IH t). destruct (broadcast io rest t) as [t' out]. simpl in *.
    rewrite filter_cons_True by done. f_equal. exact IH.
  - rewrite filter_cons_False by done. apply IH.
Qed.

Lemma update_unfold io now t :
  update io now t
  = broadcast io (connectedDevices (recomputed now t)) (recomputed now t).
Proof. reflexivity. Qed.

Lemma recomputed_devices now t :
  connectedDevices (recomputed now t) = connectedDevices t.
Proof. unfold recomputed. by destruct (isRunning t && truthy (startTime t)). Qed.

Lemma update_fields io now t :
  (update io now t).1
  = with_connectedDevices (recomputed now t)
      (filter (λ y, y ∈ io) (connectedDevices t)).
Proof.
  rewrite update_unfold, broadcast_fields, broadcast_devices.
  rewrite recomputed_devices. f_equal.
  apply filter_ext_in. intros y Hy. tauto.
Qed.

(** ** What the methods leave alone *)

Lemma stable_refl t : stable t t.
Proof. unfold stable. auto. Qed.

Lemma stable_trans t1 t2 t3 : stable t1 t2 → stable t2 t3 → stable t1 t3.
Proof.
  unfold stable. intros (? & ? & ? & ? & ?) (? & ? & ? & ? & ?).
  repeat split; try congruence; [lia | auto].
Qed.

Lemma update_stable io now t : stable t (update io now t).1.
Proof.
  rewrite update_fields. unfold stable, recomputed.
  destruct (isRunning t && truthy (startTime t)); simpl;
    (repeat split; [apply length_filter | intros d Hd; by apply list_elem_of_filter in Hd as [_ ?]]).
Qed.

Ltac stable_by_update :=
  eapply stable_trans; [| apply update_stable];
  unfold stable, clearTick; repeat case_match; simpl; auto.

Lemma start_stable io now t : stable t (start io now t).1.
Proof. unfold start. case_match; [stable_by_update | apply stable_refl]. Qed.

Lemma pause_stable io now t : stable t (pause io now t).1.
Proof. unfold pause. case_match; [stable_by_update | apply stable_refl]. Qed.

Lemma reset_stable io now t : stable t (reset io now t).1.
Proof. unfold reset. stable_by_update. Qed.

Lemma setDuration_stable io now d t : stable t (setDuration io now d t).1.
Proof. unfold setDuration. stable_by_update. Qed.

Lemma adjustTime_stable io now s t : stable t (adjustTime io now s t).1.
Proof.
  unfold adjustTime. case_match; [stable_by_update | apply setDuration_stable].
Qed.

Lemma removeDevice_stable io now d t : stable t (removeDevice io now d t).1.
Proof.
  unfold removeDevice. eapply stable_trans; [| apply update_stable].
  unfold stable; simpl. repeat split; [apply set_delete_length |].
  intros x Hx. by apply set_delete_elem in Hx as [_ ?].
Qed.

Lemma updateMessage_stable io now m t : stable t (updateMessage io now m t).1.
Proof. unfold updateMessage. stable_by_update. Qed.

Lemma clearMessage_stable io now t : stable t (clearMessage io now t).1.
Proof. unfold clearMessage. stable_by_update. Qed.

Lemma updateStyling_stable io now s t : stable t (updateStyling io now s t).1.
Proof. unfold updateStyling. stable_by_update. Qed.

Lemma toggleFlash_stable io now b t : stable t (toggleFlash io now b t).1.
Proof. unfold toggleFlash. stable_by_update. Qed.

(** [addDevice] keeps identity and owner and never exceeds the capacity it
    finds. *)
Lemma addDevice_spec io now d t :
  let r := addDevice io now d t in
  id r.1.2 = id t ∧ controllerId r.1.2 = controllerId t ∧
  maxConnectionsAllowed r.1.2 = maxConnectionsAllowed t ∧
  (r.1.1 = false → r.1.2 = t ∧ r.2 = [] ∧
     maxConnectionsAllowed t <= Z.of_nat (length (connectedDevices t))) ∧
  (r.1.1 = true →
     Z.of_nat (length (connectedDevices t)) < maxConnectionsAllowed t ∧
     Z.of_nat (length (connectedDevices r.1.2)) <= maxConnectionsAllowed t ∧
     (d ∈ io → d ∈ connectedDevices r.1.2)).
Proof.
  unfold addDevice.
  destruct (Z.of_nat (length (connectedDevices t)) <? maxConnectionsAllowed t)
    eqn:Hlt.
  - apply Z.ltb_lt in Hlt.
    pose proof (update_stable io now
      (with_connectedDevices t (set_add d (connectedDevices t)))) as Hst.
    pose proof (update_fields io now
      (with_connectedDevices t (set_add d (connectedDevices t)))) as Hf.
    destruct (update io now _) as [t' out].
    destruct Hst as (? & ? & ? & Hlen & ?). simpl in *.
    repeat split; try done.
    + pose proof (set_add_length d (connectedDevices t)). lia.
    + intros Hd. rewrite Hf. simpl. apply list_elem_of_filter. split; [done |].
      apply set_add_elem. by left.
  - apply Z.ltb_ge in Hlt. simpl. repeat split; try done.
Qed.

(** ** The countdown fields after [update], [setDuration], [reset] and
    [adjustTime] *)

Ltac by_update_fields :=
  repeat case_match; rewrite ?update_fields; unfold recomputed, clearTick;
  repeat case_match; simpl in *; repeat split; try congruence; auto.

Lemma update_countdown io now t :
  let t' := (update io now t).1 in
  duration t' = duration t ∧ originalDuration t' = originalDuration t ∧
  isRunning t' = isRunning t ∧ interval t' = interval t ∧
  startTime t' = startTime t ∧
  remaining t' = (if isRunning t && truthy (startTime t)
                  then duration t - elapsed now (startTime t)
                  else remaining t).
Proof. simpl. by_update_fields. Qed.

Lemma setDuration_countdown io now d t :
  let t' := (setDuration io now d t).1 in
  duration t' = d ∧ originalDuration t' = d ∧ remaining t' = d ∧
  isRunning t' = false ∧ interval t' = false ∧ startTime t' = None.
Proof. simpl. unfold setDuration. by_update_fields. Qed.


Lemma adjustTime_stopped io now seconds t :
  isRunning t = false →
  adjustTime io now seconds t
  = setDuration io now (Z.max 0 (duration t + seconds)) t.
Proof. intros Hr. unfold adjustTime. by rewrite Hr. Qed.

Lemma adjustTime_running io now seconds t :
  isRunning t = true →
  let t' := (adjustTime io now seconds t).1 in
  let left := Z.max 0 (duration t + seconds) - elapsed now (startTime t) in
  originalDuration t' = originalDuration t ∧
  duration t' = Z.max 0 (duration t + seconds) ∧
  isRunning t' = negb (left <=? 0) ∧
  (isRunning t' = false → interval t' = false ∧ startTime t' = None).
Proof.
  intros Hr. simpl. unfold adjustTime. rewrite Hr. simpl.
  destruct (Z.max 0 (Z.max 0 (duration t + seconds) - elapsed now (startTime t)) <=? 0)
    eqn:Hle.
  - assert ((Z.max 0 (duration t + seconds) - elapsed now (startTime t) <=? 0) = true)
      as -> by (apply Z.leb_le; apply Z.leb_le in Hle; lia).
    by_update_fields.
  - assert ((Z.max 0 (duration t + seconds) - elapsed now (startTime t) <=? 0) = false)
      as -> by (apply Z.leb_gt; apply Z.leb_gt in Hle; lia).
    by_update_fields.
Qed.



(** ** Properties of the Timer methods *)




(** C8: on a stopped timer of duration 5, [adjustTime(-10)] gives duration
    0 and a following [adjustTime(+10)] gives duration 10, not 5. *)
Theorem adjustTime_clamp_not_reversible io now1 now2 t :
  isRunning t = false → duration t = 5 →
  let t1 := (adjustTime io now1 (-10) t).1 in
  let t2 := (adjustTime io now2 10 t1).1 in
  duration t1 = 0 ∧ duration t2 = 10 ∧ duration t2 ≠ 5.
Proof.
  intros Hstop Hdur t1 t2.
  assert (duration t1 = 0 ∧ isRunning t1 = false) as [H1 Hstop1].
  { unfold t1. rewrite adjustTime_stopped by done. rewrite Hdur.
    by destruct (setDuration_countdown io now1 (Z.max 0 (5 + -10)) t)
      as (-> & _ & _ & -> & _). }
  assert (duration t2 = 10) as H2.
  { unfold t2. rewrite adjustTime_stopped by done. rewrite H1.
    by destruct (setDuration_countdown io now2 (Z.max 0 (0 + 10)) t1)
      as (-> & _). }
  rewrite H2. repeat split; [done | lia].
Qed.

Lemma adjustTime_clamp_not_reversible_witness :
  let t := newTimer "t1" "Demo" 5 None None in
  let t1 := (adjustTime ∅ 0 (-10) t).1 in
  let t2 := (adjustTime ∅ 1000 10 t1).1 in
  duration t1 = 0 ∧ duration t2 = 10 ∧ duration t2 ≠ 5.
Proof.
  apply (adjustTime_clamp_not_reversible ∅ 0 1000
           (newTimer "t1" "Demo" 5 None None)); reflexivity.
Defined.

(** ** Properties of the handlers *)

(** C4: a start, pause, reset, set, adjust, message, styling, flash or
    delete command whose controller identity is not the owner of the timer
    it names sends nothing and leaves the whole state as it was. *)
Theorem foreign_controller_dropped st socketId now genId c timerId ctrl t :
  target c = Some (timerId, ctrl) →
  timers st !! timerId = Some t →
  controllerId t ≠ Some ctrl →
  handle st socketId now genId c = (st, []).
Proof.
  intros Htarget Ht Hforeign.
  destruct c; simpl in Htarget; try discriminate; injection Htarget as -> ->;
    simpl; unfold control, deleteTimer; case_decide; try done;
    rewrite Ht; by rewrite decide_False.
Qed.

Lemma foreign_controller_dropped_witness :
  let st := run initial
              [Connect "s1";
               Receive "s1" 0 "t1" (CreateTimer "Demo" 60 None None "c1" None);
               Connect "s2"] in
  handle st "s2" 1000 "g" (StartTimer "t1" "c2") = (st, []).
Proof.
  apply (foreign_controller_dropped _ "s2" 1000 "g" (StartTimer "t1" "c2")
           "t1" "c2"
           (mkTimer "t1" "Demo" 60 60 60 false 4 3 None EmptyString "#1f2937"
              "#ffffff" "text-6xl" false ["s1"] false (Some "c1") "normal")).
  - reflexivity.
  - vm_compute. reflexivity.
  - simpl. discriminate.
Defined.

(** C7: a [create-timer] from a controller that already owns
    [maxTimersAllowed] timers or more sends [limit-exceeded] of type
    [timers] to the requester and changes nothing. *)
Theorem create_over_quota_rejected st socketId now genId nm dur maxC maxT ctrl styling :
  ctrl ≠ EmptyString →
  default 3 maxT <= Z.of_nat (length (get_set (controllerTimers st) ctrl)) →
  handle st socketId now genId (CreateTimer nm dur maxC maxT ctrl styling)
  = (st, [(socketId, LimitExceeded None Timers (default 3 maxT))]).
Proof.
  intros Hctrl Hquota. simpl. unfold createTimer.
  rewrite decide_False by done.
  apply Z.leb_le in Hquota. by rewrite Hquota.
Qed.

Lemma create_over_quota_rejected_witness :
  let st := run initial
              [Connect "s1";
               Receive "s1" 0 "t1" (CreateTimer "Demo" 60 None None "c1" None)] in
  handle st "s1" 1000 "t2" (CreateTimer "Again" 30 None (Some 1) "c1" None)
  = (st, [("s1", LimitExceeded None Timers 1)]).
Proof.
  apply (create_over_quota_rejected _ "s1" 1000 "t2" "Again" 30 None (Some 1)
           "c1" None).
  - discriminate.
  - vm_compute. discriminate.
Defined.

(** C10: a [join-timer] or [view-timer] that supplies a capacity [m] for a
    registered timer stores [m] as the timer's capacity before the capacity
    check, whoever the supplied controller is.  When [m] is not above the
    connected count the request is answered [timer-full] and every device
    stays connected; otherwise the requester is admitted. *)
Theorem join_overwrites_capacity st socketId now genId (joining : bool) timerId ctrl m t :
  ctrl ≠ EmptyString →
  timers st !! timerId = Some t →
  let c := if joining then JoinTimer timerId ctrl (Some m)
           else ViewTimer timerId ctrl (Some m) in
  let r := handle st socketId now genId c in
  ∃ t', timers r.1 !! timerId = Some t' ∧
        maxConnectionsAllowed t' = m ∧
        (m <= Z.of_nat (length (connectedDevices t)) →
         connectedDevices t' = connectedDevices t ∧
         ∃ rest, r.2 = (socketId, TimerFull timerId socketId (negb joining)) :: rest) ∧
        (Z.of_nat (length (connectedDevices t)) < m →
         (socketId, TimerJoined (getState t')) ∈ r.2).
Proof.
  intros Hctrl Ht c r.
  assert (r = joinOrView st socketId now joining timerId ctrl (Some m)) as ->
    by (unfold r, c; by destruct joining).
  unfold joinOrView. rewrite decide_False by done. rewrite Ht. simpl.
  pose proof (addDevice_spec (sockets st) now socketId
                (with_maxConnectionsAllowed t m)) as Hadd.
  simpl in Hadd.
  destruct (addDevice (sockets st) now socketId _) as [[wasAdded t'] out].
  simpl in Hadd. destruct Hadd as (_ & _ & Hmax & Hno & Hyes).
  destruct wasAdded; simpl.
  - destruct (Hyes eq_refl) as (Hlt & _ & _).
    exists t'. rewrite lookup_insert_eq. split; [done |]. split; [done |].
    split; [intros Hle; lia |].
    intros _. apply elem_of_app. right. left.
  - destruct (Hno eq_refl) as (-> & _ & Hge).
    eexists. rewrite lookup_insert_eq. split; [reflexivity |]. simpl.
    repeat split; eauto. intros Hlt. lia.
Qed.

Lemma join_overwrites_capacity_witness :
  let st := run initial
              [Connect "s1";
               Receive "s1" 0 "t1" (CreateTimer "Demo" 60 None None "c1" None);
               Connect "s2";
               Receive "s2" 1000 "g" (JoinTimer "t1" "c2" None);
               Connect "s3"] in
  let r := handle st "s3" 2000 "g" (ViewTimer "t1" "c3" (Some 1)) in
  ∃ t', timers r.1 !! "t1" = Some t' ∧
        maxConnectionsAllowed t' = 1 ∧
        connectedDevices t' = ["s1"; "s2"] ∧
        r.2 = [("s3", TimerFull "t1" "s3" true);
               ("s1", LimitExceeded (Some "t1") Viewers 0)].
Proof.
  destruct (join_overwrites_capacity
              (run initial
                 [Connect "s1";
                  Receive "s1" 0 "t1" (CreateTimer "Demo" 60 None None "c1" None);
                  Connect "s2";
                  Receive "s2" 1000 "g" (JoinTimer "t1" "c2" None);
                  Connect "s3"])
              "s3" 2000 "g" false "t1" "c3" 1
              (mkTimer "t1" "Demo" 60 60 60 false 4 3 None EmptyString "#1f2937"
                 "#ffffff" "text-6xl" false ["s1"; "s2"] false (Some "c1") "normal"))
    as (t' & Hlookup & Hmax & Hfull & _).
  - discriminate.
  - vm_compute. reflexivity.
  - exists t'. destruct Hfull as [Hdev _]; [simpl; lia |].
    repeat split; done.
Defined.

(** ** One step of the event loop *)

Lemma control_change st socketId timerId ctrl method e :
  (∀ t, stable t (method t).1) →
  Change st e (control st socketId timerId ctrl method).1.
Proof.
  intros Hstable. unfold control.
  case_decide; [by apply change_none |].
  destruct (timers st !! timerId) as [t|] eqn:Ht; [| by apply change_none].
  case_decide; [| by apply change_none].
  specialize (Hstable t). destruct (method t) as [t' out].
  by eapply change_method.
Qed.

Lemma step_change st e : Change st e (step st e).1.
Proof.
  destruct e as [s | s now genId c | s now | timerId now]; simpl.
  - by apply change_none.
  - destruct c; simpl;
      try (apply control_change; intros t;
           first [ apply setDuration_stable | apply start_stable
                 | apply pause_stable | apply reset_stable
                 | apply adjustTime_stable | apply updateMessage_stable
                 | apply clearMessage_stable | apply updateStyling_stable
                 | apply toggleFlash_stable ]).
    + (* join-timer *)
      unfold joinOrView. case_decide; [by apply change_none |].
      destruct (timers st !! timerId) as [t|] eqn:Ht; [| by apply change_none].
      eapply (change_join _ _ _ s now genId true timerId ctrl maxC t);
        [done | done | | ];
        destruct (addDevice _ _ _ _) as [[[] t'] out]; done.
    + (* view-timer *)
      unfold joinOrView. case_decide; [by apply change_none |].
      destruct (timers st !! timerId) as [t|] eqn:Ht; [| by apply change_none].
      eapply (change_join _ _ _ s now genId false timerId ctrl maxC t);
        [done | done | | ];
        destruct (addDevice _ _ _ _) as [[[] t'] out]; done.
    + (* create-timer *)
      unfold createTimer. case_decide; [by apply change_none |].
      case_match; [by apply change_none |].
      match goal with
      | |- context [addDevice _ _ _ ?t0] =>
          eapply (change_create _ _ _ s now genId nm dur maxC maxT ctrl styling t0);
            [done | by destruct styling | by destruct styling
            | by destruct styling | | ]
      end;
        destruct (addDevice _ _ _ _) as [[b t'] out]; done.
    + (* get-timers *)
      unfold getTimers. case_decide; by apply change_none.
    + (* delete-timer *)
      unfold deleteTimer. case_decide; [by apply change_none |].
      destruct (timers st !! timerId) as [t|] eqn:Ht; [| by apply change_none].
      case_decide; [| by apply change_none].
      by eapply change_delete.
  - (* disconnect *)
    unfold disconnect. simpl.
    destruct (deviceToTimer st !! s) as [timerId|]; [| by apply change_none].
    case_decide; [by apply change_none |].
    destruct (timers st !! timerId) as [t|] eqn:Ht; [| by apply change_none].
    pose proof (removeDevice_stable (sockets st ∖ {[s]}) now s t) as Hst.
    destruct (removeDevice _ _ _ _) as [t' out]. by eapply change_method.
  - (* tick *)
    unfold tick.
    destruct (timers st !! timerId) as [t|] eqn:Ht; [| by apply change_none].
    case_match; [| by apply change_none].
    pose proof (update_stable (sockets st) now t) as Hst.
    destruct (update _ _ _) as [t' out]. by eapply change_method.
Qed.

Lemma reachable_run st es :
  reachable st → admissible st es = true → reachable (run st es).
Proof.
  revert st. induction es as [|e es IH]; intros st Hst Hes; simpl in *; [done |].
  apply andb_prop in Hes as [He Hes]. apply IH; [| done].
  by apply reachable_step.
Qed.

(** ** The capacity invariant *)

Lemma capacity_step timerId st e :
  within_capacity timerId st → respects_capacity timerId st e →
  within_capacity timerId (step st e).1.
Proof.
  intros Hinv Hok t'.
  destruct (step_change st e)
    as [Ht _ | i t t1 Hi Hst Ht _
        | s now g joining i ctrl maxC t -> Hi Ht _
        | s now g nm dur maxC maxT ctrl styling t0 -> _ Hdev Hmax Ht _
        | s now g i ctrl t -> Hi _ Ht _]; rewrite Ht; clear Ht.
  - apply Hinv.
  - destruct (decide (i = timerId)) as [-> | Hne].
    + rewrite lookup_insert_eq. intros [= <-].
      destruct Hst as (_ & _ & -> & Hlen & _).
      specialize (Hinv _ Hi). lia.
    + rewrite lookup_insert_ne by done. apply Hinv.
  - destruct (decide (i = timerId)) as [-> | Hne];
      [| rewrite lookup_insert_ne by done; apply Hinv].
    rewrite lookup_insert_eq. intros [= <-].
    pose proof (addDevice_spec (sockets st) now s
                  (with_maxConnectionsAllowed t
                     (default (maxConnectionsAllowed t) maxC))) as Hadd.
    simpl in Hadd. destruct Hadd as (_ & _ & Hmax & Hno & Hyes).
    destruct (addDevice _ _ _ _) as [[wasAdded t'] out]. simpl in *.
    rewrite Hmax. destruct wasAdded.
    + by destruct (Hyes eq_refl) as (_ & ? & _).
    + destruct (Hno eq_refl) as (-> & _ & _). simpl.
      specialize (Hinv _ Hi).
      destruct maxC as [m|]; simpl; [| done].
      destruct joining; simpl in Hok; by apply Hok.
  - destruct (decide (g = timerId)) as [-> | Hne];
      [| rewrite lookup_insert_ne by done; apply Hinv].
    rewrite lookup_insert_eq. intros [= <-].
    pose proof (addDevice_spec (sockets st) now s t0) as Hadd.
    simpl in Hadd. destruct Hadd as (_ & _ & Hmax' & Hno & Hyes).
    destruct (addDevice _ _ _ _) as [[wasAdded t'] out]. simpl in *.
    rewrite Hmax'. destruct wasAdded.
    + by destruct (Hyes eq_refl) as (_ & ? & _).
    + destruct (Hno eq_refl) as (-> & _ & _). rewrite Hdev, Hmax. simpl.
      by apply Hok.
  - destruct (decide (i = timerId)) as [-> | Hne].
    + by rewrite lookup_delete_eq.
    + rewrite lookup_delete_ne by done. apply Hinv.
Qed.

(** C1, as the code has it, timer by timer: in every state reached through
    events that respect the capacity of the timer [timerId] (no join or view
    that names this timer supplies a capacity below its connected count, and
    its creation supplies no negative capacity), this timer has at most
    [maxConnectionsAllowed] connected devices, whatever capacities the
    events supply for other timers. *)
Theorem viewers_within_capacity timerId st :
  reachable_by (respects_capacity timerId) st → within_capacity timerId st.
Proof.
  induction 1 as [| st e _ IH Hok].
  - intros t. simpl. by rewrite lookup_empty.
  - by apply capacity_step.
Qed.

(** Two timers of capacity 4; a view lowers the capacity of [t2] below its
    connected count, which the events need not respect for [t1]: [t1]
    stays within its capacity while [t2] has two devices and capacity 1. *)
Lemma viewers_within_capacity_witness :
  let st :=
    (step (step (step (step (step (step initial (Connect "s1")).1
      (Receive "s1" 0 "t1" (CreateTimer "One" 60 None None "c1" None))).1
      (Connect "s2")).1
      (Receive "s2" 1000 "t2" (CreateTimer "Two" 30 None None "c2" None))).1
      (Receive "s1" 2000 "g" (JoinTimer "t2" "c1" None))).1
      (Receive "s2" 3000 "g" (ViewTimer "t2" "c2" (Some 1)))).1 in
  within_capacity "t1" st ∧
  ∃ t2, timers st !! "t2" = Some t2 ∧
        length (connectedDevices t2) = 2%nat ∧ maxConnectionsAllowed t2 = 1.
Proof.
  split.
  - apply viewers_within_capacity.
    repeat apply reachable_step.
    + apply reachable_initial.
    + exact I.
    + intros _. simpl. lia.
    + exact I.
    + intros Heq. discriminate Heq.
    + exact I.
    + intros Heq. discriminate Heq.
  - eexists. split; [vm_compute; reflexivity |]. split; reflexivity.
Defined.

(** C1 as stated fails: after the creator and a second session are
    connected to a timer of capacity 4, a [join-timer] that supplies
    capacity 1 is rejected but stored, and the timer then has two connected
    devices and capacity 1. *)
Lemma capacity_lowered_below_viewers :
  ∃ st, reachable st ∧ ¬ capacity_invariant st.
Proof.
  exists (run initial
            [Connect "s1";
             Receive "s1" 0 "t1" (CreateTimer "Demo" 60 None None "c1" None);
             Connect "s2";
             Receive "s2" 1000 "g" (JoinTimer "t1" "c1" None);
             Connect "s3";
             Receive "s3" 2000 "g" (JoinTimer "t1" "c1" (Some 1))]).
  split.
  - apply reachable_run; [apply reachable_initial | vm_compute; reflexivity].
  - intros Hinv.
    specialize (Hinv "t1"
      (mkTimer "t1" "Demo" 60 60 60 false 1 3 None EmptyString "#1f2937"
         "#ffffff" "text-6xl" false ["s1"; "s2"] false (Some "c1") "normal")).
    simpl in Hinv. assert (2 <= 1) by (apply Hinv; vm_compute; reflexivity). lia.
Qed.

(** ** Ownership and the timer list *)

Lemma get_set_add_to m k x k' y :
  y ∈ get_set (add_to m k x) k' ↔
  (k' = k ∧ y = x) ∨ y ∈ get_set m k'.
Proof.
  unfold add_to, get_set. destruct (decide (k = k')) as [-> | Hne].
  - rewrite lookup_insert_eq. simpl. rewrite set_add_elem. split.
    + intros [-> | Hy]; [by left | by right].
    + intros [[_ ->] | Hy]; [by left | by right].
  - rewrite lookup_insert_ne by done. split; [by right |].
    intros [[-> _] | Hy]; done.
Qed.

Lemma ownership_step st e :
  ownership_invariant st → enabled st e = true →
  ownership_invariant (step st e).1.
Proof.
  intros Hinv Hen c timerId.
  destruct (step_change st e)
    as [Ht Hc | i t t1 Hi Hst Ht Hc
        | s now g joining i ctrl maxC t -> Hi Ht Hc
        | s now g nm dur maxC maxT ctrl styling t0 -> Howner _ _ Ht Hc
        | s now g i ctrl t -> Hi Howner Ht Hc]; rewrite Ht, Hc; clear Ht Hc.
  - apply Hinv.
  - intros Hin. destruct (Hinv _ _ Hin) as (t2 & Ht2 & Hown).
    destruct (decide (i = timerId)) as [-> | Hne].
    + rewrite lookup_insert_eq. exists t1. split; [done |].
      destruct Hst as (_ & -> & _). congruence.
    + rewrite lookup_insert_ne by done. eauto.
  - intros Hin. destruct (Hinv _ _ Hin) as (t2 & Ht2 & Hown).
    destruct (decide (i = timerId)) as [-> | Hne];
      [| rewrite lookup_insert_ne by done; eauto].
    rewrite lookup_insert_eq. eexists. split; [done |].
    destruct (addDevice_spec (sockets st) now s
                (with_maxConnectionsAllowed t
                   (default (maxConnectionsAllowed t) maxC)))
      as (_ & -> & _).
    simpl. congruence.
  - simpl in Hen. apply andb_prop in Hen as [_ Hfresh].
    apply bool_decide_eq_true in Hfresh.
    rewrite get_set_add_to. intros [[-> ->] | Hin].
    + rewrite lookup_insert_eq. eexists. split; [done |].
      by destruct (addDevice_spec (sockets st) now s t0) as (_ & -> & _).
    + destruct (Hinv _ _ Hin) as (t2 & Ht2 & Hown).
      rewrite lookup_insert_ne by congruence. eauto.
  - intros Hin.
    assert (timerId ≠ i ∧ timerId ∈ get_set (controllerTimers st) c)
      as [Hne Hin'].
    { unfold get_set in *. destruct (decide (ctrl = c)) as [-> | Hc].
      - rewrite lookup_alter_eq in Hin.
        destruct (controllerTimers st !! c) as [l|]; simpl in *.
        + by apply set_delete_elem in Hin.
        + by apply elem_of_nil in Hin.
      - rewrite lookup_alter_ne in Hin by done. split; [| done].
        intros ->. destruct (Hinv _ _ Hin) as (t2 & Ht2 & Hown). congruence. }
    destruct (Hinv _ _ Hin') as (t2 & Ht2 & Hown).
    rewrite lookup_delete_ne by done. eauto.
Qed.

Lemma reachable_ownership st : reachable st → ownership_invariant st.
Proof.
  induction 1 as [| st e _ IH Hen].
  - intros c timerId. unfold get_set. simpl. rewrite lookup_empty. simpl.
    intros Hin. by apply elem_of_nil in Hin.
  - by apply ownership_step.
Qed.

(** C2: in every reachable state, each summary of the [timer-list] sent in
    answer to [get-timers] with controller identity [c] is the summary of a
    registered timer whose controller is [c]. *)
Theorem get_timers_only_own st socketId now genId c receiver l sm :
  reachable st →
  (receiver, TimerList l) ∈ (handle st socketId now genId (GetTimers c)).2 →
  sm ∈ l →
  ∃ timerId t, timers st !! timerId = Some t ∧ controllerId t = Some c ∧
               sm = summary t.
Proof.
  intros Hreach Hout Hsm. simpl in Hout. unfold getTimers in Hout.
  case_decide; simpl in Hout; [by apply elem_of_nil in Hout |].
  apply list_elem_of_singleton in Hout. injection Hout as _ ->.
  unfold getTimersForController in Hsm.
  apply list_elem_of_omap in Hsm as (timerId & Hin & Hsum).
  destruct (reachable_ownership st Hreach _ _ Hin) as (t & Ht & Hown).
  rewrite Ht in Hsum. injection Hsum as <-. eauto.
Qed.

(** Controller [c2] owns a timer that a session joined while supplying
    [c1]; the list sent to [c1] shows only the timer of [c1]. *)
Lemma get_timers_only_own_witness :
  let st := run initial
              [Connect "s1";
               Receive "s1" 0 "t1" (CreateTimer "Mine" 60 None None "c1" None);
               Connect "s2";
               Receive "s2" 1000 "t2" (CreateTimer "Other" 30 None None "c2" None);
               Connect "s3";
               Receive "s3" 2000 "g" (JoinTimer "t2" "c1" None)] in
  (handle st "s1" 3000 "g" (GetTimers "c1")).2
  = [("s1", TimerList [mkSummary "t1" "Mine" 60 1])] ∧
  ∃ timerId t, timers st !! timerId = Some t ∧ controllerId t = Some "c1" ∧
               mkSummary "t1" "Mine" 60 1 = summary t.
Proof.
  split; [vm_compute; reflexivity |].
  apply (get_timers_only_own _ "s1" 3000 "g" "c1" "s1"
           [mkSummary "t1" "Mine" 60 1]).
  - apply reachable_run; [apply reachable_initial | vm_compute; reflexivity].
  - vm_compute. left.
  - left.
Defined.

(** ** The tick and the ways a running timer stops *)

Lemma addDevice_running io now d t :
  isRunning (addDevice io now d t).1.2 = isRunning t.
Proof.
  unfold addDevice. case_match; [| done].
  pose proof (update_countdown io now
    (with_connectedDevices t (set_add d (connectedDevices t)))) as Hu.
  destruct (update io now _) as [t' out]. simpl in *. tauto.
Qed.

Lemma removeDevice_running io now d t :
  isRunning (removeDevice io now d t).1 = isRunning t.
Proof. unfold removeDevice. by_update_fields. Qed.

Lemma start_running io now t :
  isRunning t = true → (start io now t).1 = t.
Proof. intros Hr. unfold start. by rewrite Hr. Qed.

Lemma control_lookup st socketId i ctrl method timerId t :
  timers st !! timerId = Some t →
  timers (control st socketId i ctrl method).1 !! timerId = Some t ∨
  (i = timerId ∧ controllerId t = Some ctrl ∧
   timers (control st socketId i ctrl method).1 !! timerId = Some (method t).1).
Proof.
  intros Ht. unfold control. case_decide; [by left |].
  destruct (timers st !! i) as [ti|] eqn:Hi; [| by left].
  case_decide; [| by left].
  destruct (decide (i = timerId)) as [-> | Hne].
  - right. assert (ti = t) as -> by congruence.
    destruct (method t) as [t' out]. simpl. by rewrite lookup_insert_eq.
  - left. destruct (method ti) as [t' out]. simpl.
    by rewrite lookup_insert_ne.
Qed.

(** C6: a tick of a running timer recomputes [remaining] as [duration]
    minus the whole seconds elapsed, sends the state to the live connected
    devices, and leaves [isRunning], the interval, [duration] and
    [startTime] as they are, whatever the sign of the new [remaining].  The
    only events after which the timer is no longer registered as running are
    the owner's pause, reset, set and delete commands and an owner's adjust
    command that leaves no time. *)
Theorem tick_never_stops st timerId t :
  timers st !! timerId = Some t →
  isRunning t = true → interval t = true → truthy (startTime t) = true →
  (∀ now,
     let r := step st (Tick timerId now) in
     ∃ t', timers r.1 !! timerId = Some t' ∧
           t' = with_connectedDevices
                  (with_remaining t (duration t - elapsed now (startTime t)))
                  (filter (λ d, d ∈ sockets st) (connectedDevices t)) ∧
           remaining t' = duration t - elapsed now (startTime t) ∧
           duration t' = duration t ∧ startTime t' = startTime t ∧
           isRunning t' = true ∧ interval t' = true ∧
           r.2.*1 = filter (λ d, d ∈ sockets st) (connectedDevices t) ∧
           Forall (λ e : Emit,
                     ∃ s, e.2 = TimerUpdate s ∧ ts_remaining s = remaining t' ∧
                          ts_isRunning s = true) r.2) ∧
  (∀ e, enabled st e = true →
        (∀ t', timers (step st e).1 !! timerId = Some t' → isRunning t' = false) →
        stopping timerId t e).
Proof.
  intros Ht Hrun Hint Hstart. split.
  - intros now. simpl. unfold tick. rewrite Ht, Hint.
    pose proof (update_countdown (sockets st) now t) as Hc.
    pose proof (update_fields (sockets st) now t) as Hf.
    unfold recomputed in Hf. rewrite Hrun, Hstart in Hf. simpl in Hf.
    pose proof (broadcast_out (sockets st)
                  (connectedDevices (recomputed now t)) (recomputed now t)) as Hout.
    pose proof (broadcast_targets (sockets st)
                  (connectedDevices (recomputed now t)) (recomputed now t)) as Htg.
    rewrite <- update_unfold in Hout, Htg. rewrite recomputed_devices in Htg.
    destruct (update (sockets st) now t) as [t' out]. simpl in *.
    destruct Hc as (Hd & _ & Hr & Hi & Hs & Hrem).
    rewrite Hrun, Hstart in Hrem. simpl in Hrem.
    exists t'. rewrite lookup_insert_eq.
    repeat split; try congruence.
    eapply Forall_impl; [exact Hout |]. intros e (_ & _ & s & He & Hsr & _ & Hsrun).
    exists s. repeat split; [done | |].
    + rewrite Hsr, Hrem. unfold recomputed. rewrite Hrun, Hstart. reflexivity.
    + rewrite Hsrun. unfold recomputed. by rewrite Hrun, Hstart.
  - intros e Hen Hstopped.
    assert (∀ t', timers (step st e).1 !! timerId = Some t' →
                  isRunning t' = true → False) as Hcontra.
    { intros t' Ht' Hr'. rewrite (Hstopped t' Ht') in Hr'. discriminate. }
    destruct e as [s | s now genId c | s now | i now]; simpl in *.
    + exfalso. eauto.
    + destruct c; simpl in *.
      * (* join-timer *)
        exfalso. unfold joinOrView in *. case_decide; [eauto |].
        destruct (timers st !! timerId0) as [ti|] eqn:Hi; [| eauto].
        pose proof (addDevice_running (sockets st) now s
                      (with_maxConnectionsAllowed ti
                         (default (maxConnectionsAllowed ti) maxC))) as Hr.
        destruct (addDevice _ _ _ _) as [[wasAdded t'] out]. simpl in Hr.
        destruct (decide (timerId0 = timerId)) as [-> | Hne].
        -- apply (Hcontra t'); [| congruence].
           destruct wasAdded; simpl; by rewrite lookup_insert_eq.
        -- apply (Hcontra t); [| done].
           destruct wasAdded; simpl; by rewrite lookup_insert_ne.
      * (* view-timer *)
        exfalso. unfold joinOrView in *. case_decide; [eauto |].
        destruct (timers st !! timerId0) as [ti|] eqn:Hi; [| eauto].
        pose proof (addDevice_running (sockets st) now s
                      (with_maxConnectionsAllowed ti
                         (default (maxConnectionsAllowed ti) maxC))) as Hr.
        destruct (addDevice _ _ _ _) as [[wasAdded t'] out]. simpl in Hr.
        destruct (decide (timerId0 = timerId)) as [-> | Hne].
        -- apply (Hcontra t'); [| congruence].
           destruct wasAdded; simpl; by rewrite lookup_insert_eq.
        -- apply (Hcontra t); [| done].
           destruct wasAdded; simpl; by rewrite lookup_insert_ne.
      * (* create-timer *)
        exfalso. apply andb_prop in Hen as [_ Hfresh].
        apply bool_decide_eq_true in Hfresh.
        unfold createTimer in *. case_decide; [eauto |].
        case_match; [eauto |].
        destruct (addDevice _ _ _ _) as [[wasAdded t'] out]. simpl in *.
        apply (Hcontra t); [| done].
        rewrite lookup_insert_ne by congruence. done.
      * (* get-timers *)
        exfalso. unfold getTimers in *. case_decide; eauto.
      * (* delete-timer *)
        unfold deleteTimer in *. case_decide; [exfalso; eauto |].
        destruct (timers st !! timerId0) as [ti|] eqn:Hi; [| exfalso; eauto].
        case_decide as Hown; [| exfalso; eauto].
        destruct (decide (timerId0 = timerId)) as [-> | Hne].
        -- split; [done | congruence].
        -- exfalso. apply (Hcontra t); [| done]. simpl.
           by rewrite lookup_delete_ne.
      * (* set-timer *)
        destruct (control_lookup st s timerId0 ctrl
                    (setDuration (sockets st) now dur) timerId t Ht)
          as [Hl | (-> & Hown & _)]; [exfalso; eauto | done].
      * (* start-timer *)
        exfalso.
        destruct (control_lookup st s timerId0 ctrl
                    (start (sockets st) now) timerId t Ht)
          as [Hl | (_ & _ & Hl)]; [eauto |].
        apply (Hcontra _ Hl). by rewrite start_running.
      * (* pause-timer *)
        destruct (control_lookup st s timerId0 ctrl
                    (pause (sockets st) now) timerId t Ht)
          as [Hl | (-> & Hown & _)]; [exfalso; eauto | done].
      * (* reset-timer *)
        destruct (control_lookup st s timerId0 ctrl
                    (reset (sockets st) now) timerId t Ht)
          as [Hl | (-> & Hown & _)]; [exfalso; eauto | done].
      * (* adjust-timer *)
        destruct (control_lookup st s timerId0 ctrl
                    (adjustTime (sockets st) now seconds) timerId t Ht)
          as [Hl | (-> & Hown & Hl)]; [exfalso; eauto |].
        repeat split; [done |].
        destruct (adjustTime_running (sockets st) now seconds t Hrun)
          as (_ & _ & Hr & _).
        rewrite (Hstopped _ Hl) in Hr.
        destruct (_ <=? 0) eqn:Hle in Hr; [| discriminate].
        by apply Z.leb_le in Hle.
      * (* update-message *)
        exfalso.
        destruct (control_lookup st s timerId0 ctrl
                    (updateMessage (sockets st) now msg) timerId t Ht)
          as [Hl | (_ & _ & Hl)]; [eauto |].
        apply (Hcontra _ Hl). unfold updateMessage. by_update_fields.
      * (* clear-message *)
        exfalso.
        destruct (control_lookup st s timerId0 ctrl
                    (clearMessage (sockets st) now) timerId t Ht)
          as [Hl | (_ & _ & Hl)]; [eauto |].
        apply (Hcontra _ Hl). unfold clearMessage. by_update_fields.
      * (* update-styling *)
        exfalso.
        destruct (control_lookup st s timerId0 ctrl
                    (updateStyling (sockets st) now styling) timerId t Ht)
          as [Hl | (_ & _ & Hl)]; [eauto |].
        apply (Hcontra _ Hl). unfold updateStyling. by_update_fields.
      * (* toggle-flash *)
        exfalso.
        destruct (control_lookup st s timerId0 ctrl
                    (toggleFlash (sockets st) now flashing) timerId t Ht)
          as [Hl | (_ & _ & Hl)]; [eauto |].
        apply (Hcontra _ Hl). unfold toggleFlash. by_update_fields.
    + (* disconnect *)
      exfalso. unfold disconnect in *. simpl in *.
      destruct (deviceToTimer st !! s) as [i|]; [| eauto].
      case_decide; [eauto |].
      destruct (timers st !! i) as [ti|] eqn:Hi; [| eauto].
      pose proof (removeDevice_running (sockets st ∖ {[s]}) now s ti) as Hr.
      destruct (removeDevice _ _ _ _) as [t' out]. simpl in *.
      destruct (decide (i = timerId)) as [-> | Hne].
      * apply (Hcontra t'); [by rewrite lookup_insert_eq | congruence].
      * apply (Hcontra t); [by rewrite lookup_insert_ne | done].
    + (* tick *)
      exfalso. unfold tick in *.
      destruct (timers st !! i) as [ti|] eqn:Hi; [| eauto].
      case_match; [| eauto].
      pose proof (update_countdown (sockets st) now ti) as Hc.
      destruct (update _ _ _) as [t' out]. simpl in *.
      destruct Hc as (_ & _ & Hr & _).
      destruct (decide (i = timerId)) as [-> | Hne].
      * apply (Hcontra t'); [by rewrite lookup_insert_eq | congruence].
      * apply (Hcontra t); [by rewrite lookup_insert_ne | done].
Qed.

(** A timer started one second after its creation with 60 seconds: the tick
    62 seconds after the creation leaves it running with [remaining = -1],
    and the owner's pause is a stopping command. *)
Lemma tick_never_stops_witness :
  let st := run initial
              [Connect "s1";
               Receive "s1" 0 "t1" (CreateTimer "Demo" 60 None None "c1" None);
               Receive "s1" 1000 "g" (StartTimer "t1" "c1")] in
  let t := mkTimer "t1" "Demo" 60 60 60 true 4 3 (Some 1000) EmptyString
             "#1f2937" "#ffffff" "text-6xl" false ["s1"] true (Some "c1")
             "normal" in
  (∃ t', timers (step st (Tick "t1" 62000)).1 !! "t1" = Some t' ∧
         remaining t' = -1 ∧ isRunning t' = true ∧ interval t' = true) ∧
  stopping "t1" t (Receive "s1" 70000 "g" (PauseTimer "t1" "c1")).
Proof.
  destruct (tick_never_stops
              (run initial
                 [Connect "s1";
                  Receive "s1" 0 "t1" (CreateTimer "Demo" 60 None None "c1" None);
                  Receive "s1" 1000 "g" (StartTimer "t1" "c1")])
              "t1"
              (mkTimer "t1" "Demo" 60 60 60 true 4 3 (Some 1000) EmptyString
                 "#1f2937" "#ffffff" "text-6xl" false ["s1"] true (Some "c1")
                 "normal"))
    as [Htick Hstop].
  - vm_compute. reflexivity.
  - reflexivity.
  - reflexivity.
  - reflexivity.
  - split.
    + destruct (Htick 62000) as (t' & Hl & _ & Hrem & _ & _ & Hr & Hi & _).
      exists t'. repeat split; done.
    + apply Hstop.
      * vm_compute. reflexivity.
      * intros t' Ht'. vm_compute in Ht'. injection Ht' as <-. reflexivity.
Defined.

(** ** The sockets registered under a controller *)

Lemma control_index st socketId i ctrl method :
  controllerToSocket (control st socketId i ctrl method).1 = controllerToSocket st ∧
  sockets (control st socketId i ctrl method).1 = sockets st.
Proof.
  unfold control. repeat case_match; simpl; done.
Qed.

Lemma disconnect_index st s now :
  sockets (disconnect st s now).1 = sockets st ∖ {[s]} ∧
  controllerToSocket (disconnect st s now).1
  = omap (λ socketIds,
            if set_has s socketIds then
              let socketIds' := set_delete s socketIds in
              if decide (length socketIds' = 0%nat) then None else Some socketIds'
            else Some socketIds)
      (controllerToSocket st).
Proof.
  unfold disconnect. simpl.
  destruct (deviceToTimer st !! s) as [i|]; [| done].
  case_decide; [done |].
  destruct (timers st !! i) as [t|]; [| done].
  by destruct (removeDevice _ _ _ _) as [t' out].
Qed.

Lemma tracked_step st e :
  tracked_live st → enabled st e = true → tracked_live (step st e).1.
Proof.
  intros Hinv Hen c x. unfold tracked_live in Hinv.
  destruct e as [s | s now genId cmd | s now | i now]; simpl in *.
  - intros Hx. apply elem_of_union. right. by eapply Hinv.
  - assert (s ∈ sockets st) as Hs.
    { destruct cmd; simpl in Hen;
        try (apply andb_prop in Hen as [Hen _]);
        by apply bool_decide_eq_true in Hen. }
    destruct cmd; simpl;
      try (match goal with
           | |- context [control st s ?i ?k ?m] =>
               destruct (control_index st s i k m) as [-> ->]
           end; apply Hinv).
    + unfold joinOrView. repeat case_match; simpl; try apply Hinv;
        rewrite get_set_add_to; (intros [[_ ->] | Hx]; [done | by eapply Hinv]).
    + unfold joinOrView. repeat case_match; simpl; try apply Hinv;
        rewrite get_set_add_to; (intros [[_ ->] | Hx]; [done | by eapply Hinv]).
    + unfold createTimer. repeat case_match; simpl; try apply Hinv;
        rewrite get_set_add_to; (intros [[_ ->] | Hx]; [done | by eapply Hinv]).
    + unfold getTimers. case_match; apply Hinv.
    + unfold deleteTimer. repeat case_match; simpl; apply Hinv.
  - destruct (disconnect_index st s now) as [-> ->].
    unfold get_set. rewrite lookup_omap.
    destruct (controllerToSocket st !! c) as [l|] eqn:Hl; simpl;
      [| intros Hx; by apply elem_of_nil in Hx].
    unfold set_has. destruct (bool_decide (s ∈ l)) eqn:Hin; simpl;
      [destruct (decide (length (set_delete s l) = 0%nat)); simpl |].
    + intros Hx. by apply elem_of_nil in Hx.
    + intros Hx. apply set_delete_elem in Hx as [Hne Hx].
      apply elem_of_difference. split.
      * apply (Hinv c). unfold get_set. by rewrite Hl.
      * by rewrite elem_of_singleton.
    + intros Hx. apply elem_of_difference. split.
      * apply (Hinv c). unfold get_set. by rewrite Hl.
      * rewrite elem_of_singleton. intros ->.
        apply bool_decide_eq_false in Hin. contradiction.
  - unfold tick. repeat case_match; simpl; apply Hinv.
Qed.

Lemma reachable_tracked st : reachable st → tracked_live st.
Proof.
  induction 1 as [| st e _ IH Hen].
  - intros c x. unfold get_set. simpl. rewrite lookup_empty. simpl.
    intros Hx. by apply elem_of_nil in Hx.
  - by apply tracked_step.
Qed.

(** ** Joining a timer *)

Lemma update_live io now t :
  (∀ d, d ∈ connectedDevices t → d ∈ io) →
  update io now t
  = (recomputed now t,
     map (λ d, (d, TimerUpdate (getState (recomputed now t)))) (connectedDevices t)).
Proof.
  intros Hlive. rewrite update_unfold, broadcast_live.
  - by rewrite recomputed_devices.
  - by rewrite recomputed_devices.
Qed.

Lemma notifyController_live st timerId owner limit :
  tracked_live st →
  notifyController st timerId (Some owner) limit
  = map (λ s, (s, LimitExceeded (Some timerId) Viewers limit))
      (get_set (controllerToSocket st) owner).
Proof.
  intros Hlive. unfold notifyController. specialize (Hlive owner).
  induction (get_set (controllerToSocket st) owner) as [|x l IH]; [done |].
  simpl. rewrite decide_True by (apply Hlive; left). simpl. f_equal.
  apply IH. intros s Hs. apply Hlive. by right.
Qed.

(** C5, as the code has it: on a registered timer of capacity 1 with no
    connected device, a [join-timer] from a live session is answered
    [timer-joined] with connected count 1; the next [join-timer] for that
    timer, from any session, is answered [timer-full] with the requester's
    identity, and every session registered under the timer's controller is
    sent [limit-exceeded] of type [viewers].  Neither join supplies a
    capacity other than 1. *)
Theorem second_join_rejected st timerId t owner s1 s2 c1 c2 m1 m2 now1 now2 g1 g2 :
  reachable st →
  timers st !! timerId = Some t →
  maxConnectionsAllowed t = 1 →
  connectedDevices t = [] →
  controllerId t = Some owner →
  s1 ∈ sockets st →
  c1 ≠ EmptyString → c2 ≠ EmptyString →
  default 1 m1 = 1 → default 1 m2 = 1 →
  let r1 := handle st s1 now1 g1 (JoinTimer timerId c1 m1) in
  let r2 := handle r1.1 s2 now2 g2 (JoinTimer timerId c2 m2) in
  (∃ snapshot, (s1, TimerJoined snapshot) ∈ r1.2 ∧ ts_id snapshot = id t ∧
               ts_connectedCount snapshot = 1%nat) ∧
  r2.2 = (s2, TimerFull timerId s2 false)
           :: map (λ s, (s, LimitExceeded (Some timerId) Viewers 1))
                (get_set (controllerToSocket r1.1) owner).
Proof.
  intros Hreach Ht Hmax Hdev Howner Hs1 Hc1 Hc2 Hm1 Hm2 r1 r2.
  assert (reachable r1.1) as Hreach1.
  { apply (reachable_step _ st (Receive s1 now1 g1 (JoinTimer timerId c1 m1)));
      [done |].
    simpl. by apply bool_decide_eq_true. }
  apply reachable_tracked in Hreach1.
  set (t1 := recomputed now1
               (with_connectedDevices (with_maxConnectionsAllowed t 1) [s1])).
  assert (addDevice (sockets st) now1 s1
            (with_maxConnectionsAllowed t (default (maxConnectionsAllowed t) m1))
          = (true, t1, [(s1, TimerUpdate (getState t1))])) as Hadd.
  { unfold addDevice. simpl. rewrite Hdev, Hmax, Hm1. simpl.
    rewrite update_live.
    - reflexivity.
    - simpl. intros d Hd. apply list_elem_of_singleton in Hd. by subst. }
  assert (id t1 = id t ∧ connectedDevices t1 = [s1] ∧
          maxConnectionsAllowed t1 = 1 ∧ controllerId t1 = Some owner)
    as (Hid1 & Hdev1 & Hmax1 & Howner1).
  { unfold t1, recomputed. by case_match. }
  assert (timers r1.1 !! timerId = Some t1 ∧
          ∃ rest, r1.2 = (s1, TimerUpdate (getState t1))
                           :: (s1, TimerJoined (getState t1)) :: rest)
    as [Ht1 [rest Hout1]].
  { unfold r1. simpl. unfold joinOrView. rewrite decide_False by done.
    rewrite Ht, Hadd. simpl. rewrite lookup_insert_eq. eauto. }
  split.
  - exists (getState t1). rewrite Hout1. split; [right; left |].
    simpl. by rewrite Hid1, Hdev1.
  - unfold r2. simpl. unfold joinOrView at 1. rewrite decide_False by done.
    rewrite Ht1. unfold addDevice. simpl.
    rewrite Hdev1, Hmax1, Hm2. simpl. rewrite Howner1.
    by rewrite notifyController_live.
Qed.

(** The creator of a timer of capacity 1 has disconnected; [s1] joins and
    [s2] is rejected, and [s1], registered under the controller by its
    join, is sent the [limit-exceeded]. *)
Lemma second_join_rejected_witness :
  let st := run initial
              [Connect "s0";
               Receive "s0" 0 "t1" (CreateTimer "Demo" 60 (Some 1) None "c1" None);
               Disconnect "s0" 500;
               Connect "s1";
               Connect "s2"] in
  let r1 := handle st "s1" 1000 "g" (JoinTimer "t1" "c1" None) in
  let r2 := handle r1.1 "s2" 2000 "g" (JoinTimer "t1" "c1" None) in
  (∃ snapshot, ("s1", TimerJoined snapshot) ∈ r1.2 ∧ ts_id snapshot = "t1" ∧
               ts_connectedCount snapshot = 1%nat) ∧
  r2.2 = [("s2", TimerFull "t1" "s2" false);
          ("s1", LimitExceeded (Some "t1") Viewers 1)].
Proof.
  destruct (second_join_rejected
              (run initial
                 [Connect "s0";
                  Receive "s0" 0 "t1"
                    (CreateTimer "Demo" 60 (Some 1) None "c1" None);
                  Disconnect "s0" 500;
                  Connect "s1";
                  Connect "s2"])
              "t1"
              (mkTimer "t1" "Demo" 60 60 60 false 1 3 None EmptyString "#1f2937"
                 "#ffffff" "text-6xl" false [] false (Some "c1") "normal")
              "c1" "s1" "s2" "c1" "c1" None None 1000 2000 "g" "g")
    as [Hjoined Hfull].
  - apply reachable_run; [apply reachable_initial | vm_compute; reflexivity].
  - vm_compute. reflexivity.
  - reflexivity.
  - reflexivity.
  - reflexivity.
  - vm_compute. reflexivity.
  - discriminate.
  - discriminate.
  - reflexivity.
  - reflexivity.
  - split; [exact Hjoined |]. rewrite Hfull. vm_compute. reflexivity.
Defined.

(** C5 as stated fails: [create-timer] connects the creating session, so on
    a timer created with capacity 1 the first [join-timer] of another
    session is answered [timer-full]. *)
Lemma first_join_after_create_rejected :
  let st := run initial
              [Connect "s1";
               Receive "s1" 0 "t1" (CreateTimer "Demo" 60 (Some 1) None "c1" None);
               Connect "s2"] in
  reachable st ∧
  (∃ t, timers st !! "t1" = Some t ∧ maxConnectionsAllowed t = 1) ∧
  (handle st "s2" 1000 "g" (JoinTimer "t1" "c1" None)).2
  = [("s2", TimerFull "t1" "s2" false);
     ("s1", LimitExceeded (Some "t1") Viewers 1)] ∧
  ¬ ∃ snapshot, ("s2", TimerJoined snapshot)
                ∈ (handle st "s2" 1000 "g" (JoinTimer "t1" "c1" None)).2.
Proof.
  split; [| split; [| split]].
  - apply reachable_run; [apply reachable_initial | vm_compute; reflexivity].
  - eexists. split; [vm_compute; reflexivity | reflexivity].
  - vm_compute. reflexivity.
  - intros [snapshot Hin]. vm_compute in Hin.
    apply elem_of_cons in Hin as [Hin | Hin]; [discriminate |].
    apply elem_of_cons in Hin as [Hin | Hin]; [discriminate |].
    by apply elem_of_nil in Hin.
Qed.

(** C9, as the code has it: [deviceToTimer] holds one timer for a session,
    and a join that succeeds on timer [b] sets the entry of the session to
    [b] and connects it to [b]; timer [a], to which the session was
    connected, is left as it was and still lists the session. *)
Theorem join_replaces_mapping st socketId now genId a b ctrl maxC ta tb :
  a ≠ b → ctrl ≠ EmptyString →
  timers st !! a = Some ta → timers st !! b = Some tb →
  socketId ∈ connectedDevices ta →
  socketId ∈ sockets st →
  Z.of_nat (length (connectedDevices tb))
    < default (maxConnectionsAllowed tb) maxC →
  let r := handle st socketId now genId (JoinTimer b ctrl maxC) in
  (∃ snapshot, (socketId, TimerJoined snapshot) ∈ r.2) ∧
  deviceToTimer r.1 !! socketId = Some b ∧
  (∃ tb', timers r.1 !! b = Some tb' ∧ socketId ∈ connectedDevices tb') ∧
  timers r.1 !! a = Some ta.
Proof.
  intros Hab Hctrl Ha Hb Hin Hlive Hroom r. unfold r. simpl.
  unfold joinOrView. rewrite decide_False by done. rewrite Hb.
  pose proof (addDevice_spec (sockets st) now socketId
                (with_maxConnectionsAllowed tb
                   (default (maxConnectionsAllowed tb) maxC))) as Hadd.
  simpl in Hadd. destruct Hadd as (_ & _ & _ & Hno & Hyes).
  destruct (addDevice _ _ _ _) as [[wasAdded tb'] out].
  simpl in Hno, Hyes. destruct wasAdded.
  - destruct (Hyes eq_refl) as (_ & _ & Hjoined). simpl. repeat split.
    + eexists. apply elem_of_app. right. left.
    + by rewrite lookup_insert_eq.
    + exists tb'. rewrite lookup_insert_eq. auto.
    + by rewrite lookup_insert_ne.
  - destruct (Hno eq_refl) as (_ & _ & Hfull). lia.
Qed.

Lemma join_replaces_mapping_witness :
  let st := run initial
              [Connect "s1";
               Receive "s1" 0 "t1" (CreateTimer "First" 60 None None "c1" None);
               Connect "s2";
               Receive "s2" 1000 "t2" (CreateTimer "Second" 30 None None "c2" None)] in
  let r := handle st "s1" 2000 "g" (JoinTimer "t2" "c1" None) in
  deviceToTimer st !! "s1" = Some "t1" ∧
  deviceToTimer r.1 !! "s1" = Some "t2" ∧
  (∃ tb', timers r.1 !! "t2" = Some tb' ∧ "s1" ∈ connectedDevices tb') ∧
  (∃ ta', timers r.1 !! "t1" = Some ta' ∧ "s1" ∈ connectedDevices ta').
Proof.
  destruct (join_replaces_mapping
              (run initial
                 [Connect "s1";
                  Receive "s1" 0 "t1" (CreateTimer "First" 60 None None "c1" None);
                  Connect "s2";
                  Receive "s2" 1000 "t2"
                    (CreateTimer "Second" 30 None None "c2" None)])
              "s1" 2000 "g" "t1" "t2" "c1" None
              (mkTimer "t1" "First" 60 60 60 false 4 3 None EmptyString "#1f2937"
                 "#ffffff" "text-6xl" false ["s1"] false (Some "c1") "normal")
              (mkTimer "t2" "Second" 30 30 30 false 4 3 None EmptyString "#1f2937"
                 "#ffffff" "text-6xl" false ["s2"] false (Some "c2") "normal"))
    as (_ & Hmap & Hb & Ha).
  - discriminate.
  - discriminate.
  - vm_compute. reflexivity.
  - vm_compute. reflexivity.
  - left.
  - vm_compute. reflexivity.
  - simpl. lia.
  - split; [vm_compute; reflexivity |]. split; [exact Hmap |].
    split; [exact Hb |]. eexists. split; [exact Ha | left].
Defined.

(** C9 as stated fails: a session that created (and so is connected to)
    timer [t1] and then joins [t2] is afterwards listed by both timers. *)
Lemma session_stays_in_previous_timer :
  let st := run initial
              [Connect "s1";
               Receive "s1" 0 "t1" (CreateTimer "First" 60 None None "c1" None);
               Connect "s2";
               Receive "s2" 1000 "t2" (CreateTimer "Second" 30 None None "c2" None)] in
  let r := handle st "s1" 2000 "g" (JoinTimer "t2" "c1" None) in
  reachable st ∧
  ("s1", TimerJoined
           (mkTimerState "t2" "Second" 30 30 false EmptyString "#1f2937"
              "#ffffff" "text-6xl" false 2 "normal")) ∈ r.2 ∧
  ∃ ta tb, timers r.1 !! "t1" = Some ta ∧ timers r.1 !! "t2" = Some tb ∧
           "s1" ∈ connectedDevices tb ∧
           ¬ ("s1" ∉ connectedDevices ta).
Proof.
  split; [| split].
  - apply reachable_run; [apply reachable_initial | vm_compute; reflexivity].
  - vm_compute. do 2 right. left.
  - eexists. eexists.
    split; [vm_compute; reflexivity |]. split; [vm_compute; reflexivity |].
    split; [right; left |]. intros Hnot. apply Hnot. left.
Qed.

(** ** Further properties of the Timer methods *)

Lemma update_targets io now t :
  (update io now t).2.*1 = filter (λ d, d ∈ io) (connectedDevices t).
Proof.
  rewrite update_unfold, broadcast_targets. by rewrite recomputed_devices.
Qed.

(** X1: starting a stopped timer that has time left and pausing it sets
    [remaining] to [duration] minus the whole seconds between the two clock
    readings and [duration] to the absolute value of that; the timer is
    stopped, holds no interval and keeps its reset value.  Paused within
    the first second, a timer of non-negative duration shows its duration
    unchanged. *)
Theorem start_then_pause io now1 now2 t :
  isRunning t = false → 0 < remaining t →
  let t' := (pause io now2 (start io now1 t).1).1 in
  remaining t' = duration t - (now2 - now1) / 1000 ∧
  duration t' = Z.abs (duration t - (now2 - now1) / 1000) ∧
  isRunning t' = false ∧ interval t' = false ∧
  originalDuration t' = originalDuration t ∧
  (now1 <= now2 < now1 + 1000 → 0 <= duration t →
   remaining t' = duration t ∧ duration t' = duration t).
Proof.
  intros Hstop Hleft t'.
  assert (remaining t' = duration t - (now2 - now1) / 1000 ∧
          duration t' = Z.abs (duration t - (now2 - now1) / 1000) ∧
          isRunning t' = false ∧ interval t' = false ∧
          originalDuration t' = originalDuration t) as (Hr & Hd & Hrun & Hi & Ho).
  { unfold t', start. rewrite Hstop.
    assert ((0 <? remaining t) = true) as -> by by apply Z.ltb_lt.
    simpl. unfold pause.
    rewrite !update_fields. unfold recomputed, clearTick, elapsed, since. simpl.
    destruct (negb (now1 =? 0)); simpl;
      rewrite update_fields; unfold recomputed, elapsed, since; simpl; done. }
  repeat split; try done.
  - rewrite Hr. assert ((now2 - now1) / 1000 = 0) as ->
      by (apply Z.div_small; lia). lia.
  - rewrite Hd. assert ((now2 - now1) / 1000 = 0) as ->
      by (apply Z.div_small; lia). lia.
Qed.

Lemma start_then_pause_witness :
  let t' := (pause ∅ 4500 (start ∅ 1000 (newTimer "t1" "Demo" 60 None None)).1).1 in
  remaining t' = 57 ∧ duration t' = 57 ∧ isRunning t' = false ∧
  originalDuration t' = 60.
Proof.
  destruct (start_then_pause ∅ 1000 4500 (newTimer "t1" "Demo" 60 None None))
    as (Hr & Hd & Hrun & _ & Ho & _).
  - reflexivity.
  - reflexivity.
  - repeat split; done.
Defined.

(** X2: a running timer paused once its time is used up is left with
    [remaining <= 0], and no later [start] does anything to it: the state
    is returned as it is and nothing is sent. *)
Theorem paused_after_overrun_cannot_start io now t :
  isRunning t = true →
  duration t <= elapsed now (startTime t) →
  let p := (pause io now t).1 in
  remaining p = duration t - elapsed now (startTime t) ∧
  duration p = elapsed now (startTime t) - duration t ∧
  ∀ io' now', start io' now' p = (p, []).
Proof.
  intros Hrun Hover p.
  assert (remaining p = duration t - elapsed now (startTime t) ∧
          duration p = Z.abs (duration t - elapsed now (startTime t)) ∧
          isRunning p = false) as (Hr & Hd & Hs).
  { unfold p, pause. rewrite Hrun. rewrite update_fields.
    unfold recomputed, clearTick. repeat case_match; simpl in *; done. }
  split; [done |]. split; [rewrite Hd; lia |].
  intros io' now'. unfold start. rewrite Hs. simpl.
  assert ((0 <? remaining p) = false) as -> by (apply Z.ltb_ge; lia). done.
Qed.

Lemma paused_after_overrun_cannot_start_witness :
  let t := (start ∅ 1000 (newTimer "t1" "Demo" 5 None None)).1 in
  let p := (pause ∅ 9000 t).1 in
  remaining p = -3 ∧ duration p = 3 ∧ start ∅ 10000 p = (p, []).
Proof.
  assert (duration (start ∅ 1000 (newTimer "t1" "Demo" 5 None None)).1
          <= elapsed 9000
               (startTime (start ∅ 1000 (newTimer "t1" "Demo" 5 None None)).1))
    as Hover by (vm_compute; discriminate).
  destruct (paused_after_overrun_cannot_start ∅ 9000
              (start ∅ 1000 (newTimer "t1" "Demo" 5 None None)).1
              eq_refl Hover)
    as (Hr & Hd & Hstart).
  cbv zeta. split; [rewrite Hr; vm_compute; reflexivity |].
  split; [rewrite Hd; vm_compute; reflexivity | apply Hstart].
Defined.

(** X3: [start] is idempotent: a second [start] right after a first one,
    at any clock reading, changes nothing and sends nothing. *)
Theorem start_twice io now1 now2 t :
  start io now2 (start io now1 t).1 = ((start io now1 t).1, []).
Proof.
  unfold start at 2 3.
  destruct (negb (isRunning t) && (0 <? remaining t)) eqn:Hcan.
  - assert (isRunning (update io now1
              (with_interval (with_startTime (with_isRunning t true) (Some now1))
                 true)).1 = true) as Hr.
    { rewrite update_fields. unfold recomputed. by case_match. }
    unfold start. by rewrite Hr.
  - simpl. unfold start. by rewrite Hcan.
Qed.

(** X4: [adjustTime] sets [duration] to [max 0 (duration + seconds)], never
    a negative value.  On a stopped timer [remaining] becomes that duration
    and the timer stays stopped.  On a running timer the whole seconds
    elapsed when the method reads the clock decide: if they have reached
    the new duration the timer is stopped with [remaining] exactly 0, its
    interval cleared and its start time reset; otherwise it keeps running
    with its interval and start time. *)
Theorem adjustTime_clamps_and_stops io now seconds t :
  let t' := (adjustTime io now seconds t).1 in
  let newDuration := Z.max 0 (duration t + seconds) in
  duration t' = newDuration ∧ 0 <= duration t' ∧
  (isRunning t = false →
   remaining t' = newDuration ∧ isRunning t' = false ∧ interval t' = false) ∧
  (isRunning t = true → newDuration <= elapsed now (startTime t) →
   remaining t' = 0 ∧ isRunning t' = false ∧ interval t' = false ∧
   startTime t' = None) ∧
  (isRunning t = true → elapsed now (startTime t) < newDuration →
   isRunning t' = true ∧ interval t' = interval t ∧
   startTime t' = startTime t).
Proof.
  simpl. destruct (isRunning t) eqn:Hrun.
  - unfold adjustTime. rewrite Hrun. simpl.
    destruct (Z.max 0 (Z.max 0 (duration t + seconds) - elapsed now (startTime t))
                <=? 0) eqn:Hle.
    + apply Z.leb_le in Hle. rewrite update_fields.
      unfold recomputed, clearTick. simpl.
      destruct (interval t); simpl; repeat split; try done; try lia.
    + apply Z.leb_gt in Hle. rewrite update_fields. unfold recomputed. simpl.
      rewrite Hrun. simpl.
      destruct (truthy (startTime t)); simpl; repeat split; try done; try lia.
  - rewrite adjustTime_stopped by done.
    destruct (setDuration_countdown io now (Z.max 0 (duration t + seconds)) t)
      as (-> & _ & -> & -> & -> & _).
    repeat split; try done; lia.
Qed.

Lemma broadcast_snapshots io pending t :
  Forall (λ e : Emit,
            ∃ l, e.2 = TimerUpdate (getState (with_connectedDevices t l)) ∧
                 (length (connectedDevices (broadcast io pending t).1) ≤ length l
                  ∧ length l ≤ length (connectedDevices t))%nat)
    (broadcast io pending t).2.
Proof.
  revert t. induction pending as [|d rest IH]; intros t; simpl; [constructor |].
  case_decide as Hd.
  - specialize (IH t). pose proof (broadcast_devices io rest t) as Hdev.
    destruct (broadcast io rest t) as [t' out]. simpl in *. constructor.
    + exists (connectedDevices t). simpl. split; [by destruct t |].
      rewrite Hdev. split; [apply length_filter | done].
    + exact IH.
  - eapply Forall_impl; [apply IH |]. simpl. intros e (l & He & Hlo & Hhi).
    exists l. split; [done |]. split; [done |].
    pose proof (set_delete_length d (connectedDevices t)). lia.
Qed.

(** X5: [update] heals the viewer set: afterwards the connected devices are
    the previously connected ones whose socket is live, in their order, and
    the [timer-update]s went to exactly those, in that order.  Each carries
    the state of the timer as [update] leaves it, except that its connected
    count may still include devices deleted later in the same pass. *)
Theorem update_evicts_dead_sockets io now t :
  let r := update io now t in
  connectedDevices r.1 = filter (λ d, d ∈ io) (connectedDevices t) ∧
  r.2.*1 = connectedDevices r.1 ∧
  (∀ d, d ∈ connectedDevices r.1 → d ∈ io) ∧
  Forall (λ e : Emit,
            ∃ l, e.2 = TimerUpdate (getState (with_connectedDevices r.1 l)) ∧
                 (length (connectedDevices r.1) ≤ length l
                  ∧ length l ≤ length (connectedDevices t))%nat) r.2.
Proof.
  simpl. rewrite update_targets.
  pose proof (update_fields io now t) as Hf.
  pose proof (broadcast_snapshots io (connectedDevices (recomputed now t))
                (recomputed now t)) as Hsnap.
  rewrite <- update_unfold in Hsnap. rewrite recomputed_devices in Hsnap.
  destruct (update io now t) as [t' out]. simpl in *. subst t'. simpl in *.
  repeat split.
  - intros d Hd. by apply list_elem_of_filter in Hd as [? _].
  - exact Hsnap.
Qed.

Lemma update_fanOut io now t :
  (∀ d, d ∈ connectedDevices t → d ∈ io) →
  (update io now t).2 = fanOut (update io now t).1 ∧
  connectedDevices (update io now t).1 = connectedDevices t.
Proof.
  intros Hlive. rewrite update_live by done. simpl. unfold fanOut.
  by rewrite recomputed_devices.
Qed.

(** X6: when every connected device is live, a method of the controller
    either does nothing at all ([start] on a timer that runs or has no time
    left, [pause] on a stopped timer) or sends every connected device one
    [timer-update] that carries the state the timer is left in; the
    connected devices stay the same.  [setDuration] always does the
    latter. *)
Theorem fan_out_consistent io now c d t :
  (∀ x, x ∈ connectedDevices t → x ∈ io) →
  (call io now c t = (t, []) ∨
   ((call io now c t).2 = fanOut (call io now c t).1 ∧
    connectedDevices (call io now c t).1 = connectedDevices t)) ∧
  (setDuration io now d t).2 = fanOut (setDuration io now d t).1 ∧
  connectedDevices (setDuration io now d t).1 = connectedDevices t.
Proof.
  intros Hlive.
  assert (∀ t0, connectedDevices t0 = connectedDevices t →
            (update io now t0).2 = fanOut (update io now t0).1 ∧
            connectedDevices (update io now t0).1 = connectedDevices t) as Hup.
  { intros t0 Hdev. destruct (update_fanOut io now t0) as [? ?].
    - by rewrite Hdev.
    - split; congruence. }
  assert ((setDuration io now d t).2 = fanOut (setDuration io now d t).1 ∧
          connectedDevices (setDuration io now d t).1 = connectedDevices t) as Hset.
  { unfold setDuration, clearTick. apply Hup. by case_match. }
  split; [| exact Hset].
  destruct c; simpl.
  - unfold start. case_match; [right; by apply Hup | by left].
  - unfold pause, clearTick. case_match; [right | by left].
    apply Hup. by case_match.
  - right. unfold reset, clearTick. apply Hup. by case_match.
  - right. unfold adjustTime, setDuration, clearTick.
    repeat case_match; apply Hup; done.
  - right. by apply Hup.
  - right. by apply Hup.
  - right. by apply Hup.
  - right. by apply Hup.
Qed.

Lemma fan_out_consistent_witness :
  let io : gset string := {["s1"]} ∪ {["s2"]} in
  let t := with_connectedDevices (newTimer "t1" "Demo" 60 None None) ["s1"; "s2"] in
  (call io 1000 (CMessage "Five minutes") t).2
  = [("s1", TimerUpdate (getState (with_message t "Five minutes")));
     ("s2", TimerUpdate (getState (with_message t "Five minutes")))].
Proof.
  destruct (fan_out_consistent ({["s1"]} ∪ {["s2"]}) 1000
              (CMessage "Five minutes") 30
              (with_connectedDevices (newTimer "t1" "Demo" 60 None None)
                 ["s1"; "s2"]))
    as [[Hnoop | [Hout _]] _].
  - intros x Hx. simpl in Hx.
    apply elem_of_cons in Hx as [-> | Hx]; [by vm_compute |].
    apply list_elem_of_singleton in Hx as ->. by vm_compute.
  - discriminate Hnoop.
  - cbv zeta. rewrite Hout. vm_compute. reflexivity.
Defined.

(** ** Further properties of the handlers *)

(** X7: a command whose controller identity is empty is dropped, whatever
    the command: nothing is sent and the state stays as it is. *)
Theorem missing_controller_dropped st socketId now genId c :
  controllerOf c = EmptyString →
  handle st socketId now genId c = (st, []).
Proof.
  intros Hc.
  destruct c; simpl in Hc; subst; simpl;
    unfold joinOrView, createTimer, getTimers, deleteTimer, control;
    by rewrite decide_True.
Qed.

Lemma missing_controller_dropped_witness :
  let st := run initial
              [Connect "s1";
               Receive "s1" 0 "t1" (CreateTimer "Demo" 60 None None "c1" None)] in
  handle st "s1" 1000 "g" (JoinTimer "t1" EmptyString (Some 9)) = (st, []).
Proof.
  apply (missing_controller_dropped _ "s1" 1000 "g"
           (JoinTimer "t1" EmptyString (Some 9))).
  reflexivity.
Defined.

(** X8: a start, pause, reset, set, adjust, message, styling, flash or
    delete command that names a timer that is not registered is dropped:
    nothing is sent, not even [timer-not-found], and the state stays as it
    is. *)
Theorem unknown_timer_dropped st socketId now genId c timerId ctrl :
  target c = Some (timerId, ctrl) →
  timers st !! timerId = None →
  handle st socketId now genId c = (st, []).
Proof.
  intros Htarget Hnone.
  destruct c; simpl in Htarget; try discriminate; injection Htarget as -> ->;
    simpl; unfold control, deleteTimer; case_decide; try done; by rewrite Hnone.
Qed.

Lemma unknown_timer_dropped_witness :
  handle initial "s1" 0 "g" (ResetTimer "gone" "c1") = (initial, []).
Proof.
  apply (unknown_timer_dropped initial "s1" 0 "g" (ResetTimer "gone" "c1")
           "gone" "c1"); reflexivity.
Defined.

(** X9: a [join-timer] or [view-timer] with a controller identity that
    names a timer that is not registered is answered [timer-not-found] with
    that timer identifier, to the requester alone, and changes nothing: the
    supplied capacity is not stored and the socket is not registered under
    the controller. *)
Theorem join_unknown_timer st socketId now genId (joining : bool) timerId ctrl maxC :
  ctrl ≠ EmptyString →
  timers st !! timerId = None →
  handle st socketId now genId
    (if joining then JoinTimer timerId ctrl maxC else ViewTimer timerId ctrl maxC)
  = (st, [(socketId, TimerNotFound timerId)]).
Proof.
  intros Hctrl Hnone. destruct joining; simpl; unfold joinOrView;
    rewrite decide_False by done; by rewrite Hnone.
Qed.

Lemma join_unknown_timer_witness :
  handle initial "s1" 0 "g" (ViewTimer "gone" "c1" (Some 2))
  = (initial, [("s1", TimerNotFound "gone")]).
Proof.
  apply (join_unknown_timer initial "s1" 0 "g" false "gone" "c1" (Some 2)).
  - discriminate.
  - reflexivity.
Defined.

Lemma lookup_foldr_delete (m : gmap string string) (l : list string) d :
  (d ∈ l → foldr delete m l !! d = None) ∧
  (d ∉ l → foldr delete m l !! d = m !! d).
Proof.
  induction l as [|x l [IHin IHout]]; cbn [foldr].
  - split; [intros Hd; by apply elem_of_nil in Hd | done].
  - destruct (decide (x = d)) as [-> | Hne].
    + rewrite lookup_delete_eq. split; [done |].
      intros Hd. exfalso. apply Hd. left.
    + rewrite lookup_delete_ne by done. split.
      * intros Hd. apply elem_of_cons in Hd as [-> | Hd]; [done | auto].
      * intros Hd. apply not_elem_of_cons in Hd as [_ Hd]. auto.
Qed.

(** X10: when the owner deletes a timer, every live connected device is
    sent [timer-deleted], the timer leaves the registry and the owner's
    index, every device that was connected to it loses its
    [deviceToTimer] entry, the other timers stay as they are, and the list
    then sent to the requester has no summary of the deleted timer's
    registry entry. *)
Theorem delete_by_owner st socketId now genId timerId ctrl t :
  ctrl ≠ EmptyString →
  timers st !! timerId = Some t →
  controllerId t = Some ctrl →
  let r := handle st socketId now genId (DeleteTimer timerId ctrl) in
  timers r.1 !! timerId = None ∧
  (∀ i, i ≠ timerId → timers r.1 !! i = timers st !! i) ∧
  (timerId ∉ get_set (controllerTimers r.1) ctrl) ∧
  (∀ d, d ∈ connectedDevices t → deviceToTimer r.1 !! d = None) ∧
  (∀ d, d ∈ connectedDevices t → d ∈ sockets st →
        (d, TimerDeleted timerId) ∈ r.2) ∧
  ∃ l, last r.2 = Some (socketId, TimerList l) ∧
       ∀ sm, sm ∈ l → ∃ i t', i ≠ timerId ∧ timers st !! i = Some t' ∧
                              sm = summary t'.
Proof.
  intros Hctrl Ht Hown r. unfold r. simpl. unfold deleteTimer.
  rewrite decide_False by done. rewrite Ht. rewrite decide_True by done.
  simpl.
  assert (timerId ∉ get_set (alter (set_delete timerId) ctrl (controllerTimers st))
                      ctrl) as Hgone.
  { unfold get_set. rewrite lookup_alter_eq.
    destruct (controllerTimers st !! ctrl) as [l|]; simpl.
    - rewrite set_delete_elem. tauto.
    - apply not_elem_of_nil. }
  repeat split.
  - by rewrite lookup_delete_eq.
  - intros i Hi. by rewrite lookup_delete_ne.
  - exact Hgone.
  - intros d Hd. by apply lookup_foldr_delete.
  - intros d Hd Hlive. apply elem_of_app. left.
    apply list_elem_of_omap. exists d. split; [done |].
    by rewrite decide_True.
  - eexists. split; [apply last_snoc |].
    intros sm Hsm. unfold getTimersForController in Hsm. simpl in Hsm.
    apply list_elem_of_omap in Hsm as (i & Hi & Hsum).
    destruct (decide (i = timerId)) as [-> | Hne]; [contradiction |].
    rewrite lookup_delete_ne in Hsum by done.
    destruct (timers st !! i) as [t'|] eqn:Hti; [| discriminate].
    injection Hsum as <-. eauto.
Qed.

Lemma delete_by_owner_witness :
  let st := run initial
              [Connect "s1";
               Receive "s1" 0 "t1" (CreateTimer "Demo" 60 None None "c1" None);
               Connect "s2";
               Receive "s2" 1000 "g" (ViewTimer "t1" "c2" None)] in
  let r := handle st "s1" 2000 "g" (DeleteTimer "t1" "c1") in
  timers r.1 !! "t1" = None ∧
  deviceToTimer r.1 !! "s2" = None ∧
  r.2 = [("s1", TimerDeleted "t1"); ("s2", TimerDeleted "t1");
         ("s1", TimerList [])].
Proof.
  destruct (delete_by_owner
              (run initial
                 [Connect "s1";
                  Receive "s1" 0 "t1" (CreateTimer "Demo" 60 None None "c1" None);
                  Connect "s2";
                  Receive "s2" 1000 "g" (ViewTimer "t1" "c2" None)])
              "s1" 2000 "g" "t1" "c1"
              (mkTimer "t1" "Demo" 60 60 60 false 4 3 None EmptyString "#1f2937"
                 "#ffffff" "text-6xl" false ["s1"; "s2"] false (Some "c1") "normal"))
    as (Hgone & _ & _ & Hmap & _).
  - discriminate.
  - vm_compute. reflexivity.
  - reflexivity.
  - split; [exact Hgone |]. split.
    + apply Hmap. right. left.
    + vm_compute. reflexivity.
Defined.

(** X11: a [create-timer] under the quota, from a live socket, with a
    positive viewer capacity registers under the generated identifier a
    stopped timer with [duration], [remaining] and the reset value equal to
    the requested duration, owned by the supplied controller, with the
    creator as its only connected device; the creator is mapped to the
    timer and registered under the controller, and is sent a
    [timer-update], the controller's timer list (which shows the new timer)
    and [timer-created], in that order. *)
Theorem create_registers_timer st socketId now genId nm dur maxC maxT ctrl styling :
  ctrl ≠ EmptyString →
  Z.of_nat (length (get_set (controllerTimers st) ctrl)) < default 3 maxT →
  socketId ∈ sockets st →
  0 < default 4 maxC →
  let r := handle st socketId now genId
             (CreateTimer nm dur maxC maxT ctrl styling) in
  let t := with_connectedDevices
             (createdTimer genId nm dur maxC maxT ctrl styling) [socketId] in
  timers r.1 !! genId = Some t ∧
  (id t = genId ∧ name t = nm ∧ duration t = dur ∧ remaining t = dur ∧
   originalDuration t = dur ∧ isRunning t = false ∧
   controllerId t = Some ctrl ∧ maxConnectionsAllowed t = default 4 maxC) ∧
  deviceToTimer r.1 !! socketId = Some genId ∧
  genId ∈ get_set (controllerTimers r.1) ctrl ∧
  socketId ∈ get_set (controllerToSocket r.1) ctrl ∧
  r.2 = [(socketId, TimerUpdate (getState t));
         (socketId, TimerList (getTimersForController r.1 ctrl));
         (socketId, TimerCreated (getState t))] ∧
  summary t ∈ getTimersForController r.1 ctrl.
Proof.
  intros Hctrl Hquota Hlive Hcap r t.
  assert (addDevice (sockets st) now socketId
            (createdTimer genId nm dur maxC maxT ctrl styling)
          = (true, t, [(socketId, TimerUpdate (getState t))])) as Hadd.
  { unfold addDevice.
    assert (connectedDevices (createdTimer genId nm dur maxC maxT ctrl styling) = []
            ∧ maxConnectionsAllowed (createdTimer genId nm dur maxC maxT ctrl styling)
              = default 4 maxC
            ∧ isRunning (createdTimer genId nm dur maxC maxT ctrl styling) = false)
      as (Hdev & Hmax & Hrun) by (unfold createdTimer; by destruct styling).
    rewrite Hdev, Hmax. change (Z.of_nat (length [])) with 0.
    assert ((0 <? default 4 maxC) = true) as -> by by apply Z.ltb_lt.
    change (set_add socketId []) with [socketId]. fold t.
    rewrite update_live.
    - unfold recomputed.
      assert (isRunning t = false) as -> by exact Hrun. reflexivity.
    - intros d Hd. apply list_elem_of_singleton in Hd. by subst. }
  assert (r = (mkState (<[genId := t]> (timers st))
                 (<[socketId := genId]> (deviceToTimer st))
                 (add_to (controllerTimers st) ctrl genId)
                 (add_to (controllerToSocket st) ctrl socketId)
                 (sockets st),
               [(socketId, TimerUpdate (getState t));
                (socketId, TimerList
                   (getTimersForController
                      (mkState (<[genId := t]> (timers st))
                         (<[socketId := genId]> (deviceToTimer st))
                         (add_to (controllerTimers st) ctrl genId)
                         (add_to (controllerToSocket st) ctrl socketId)
                         (sockets st)) ctrl));
                (socketId, TimerCreated (getState t))])) as Hr.
  { unfold r. simpl. unfold createTimer. rewrite decide_False by done.
    assert ((default 3 maxT <=? Z.of_nat (length (get_set (controllerTimers st) ctrl)))
            = false) as -> by (apply Z.leb_gt; lia).
    fold (createdTimer genId nm dur maxC maxT ctrl styling).
    rewrite Hadd. reflexivity. }
  rewrite Hr. simpl.
  assert (genId ∈ get_set (add_to (controllerTimers st) ctrl genId) ctrl) as Hin
    by (apply get_set_add_to; by left).
  repeat split.
  - by rewrite lookup_insert_eq.
  - unfold t, createdTimer. by destruct styling.
  - unfold t, createdTimer. by destruct styling.
  - unfold t, createdTimer. by destruct styling.
  - unfold t, createdTimer. by destruct styling.
  - unfold t, createdTimer. by destruct styling.
  - unfold t, createdTimer. by destruct styling.
  - unfold t, createdTimer. by destruct styling.
  - unfold t, createdTimer. by destruct styling.
  - by rewrite lookup_insert_eq.
  - exact Hin.
  - apply get_set_add_to. by left.
  - unfold getTimersForController. simpl. apply list_elem_of_omap.
    exists genId. split; [exact Hin |]. by rewrite lookup_insert_eq.
Qed.

Lemma create_registers_timer_witness :
  let r := handle (step initial (Connect "s1")).1 "s1" 0 "t1"
             (CreateTimer "Demo" 60 None None "c1" None) in
  r.2 = [("s1", TimerUpdate
                  (mkTimerState "t1" "Demo" 60 60 false EmptyString "#1f2937"
                     "#ffffff" "text-6xl" false 1 "normal"));
         ("s1", TimerList [mkSummary "t1" "Demo" 60 1]);
         ("s1", TimerCreated
                  (mkTimerState "t1" "Demo" 60 60 false EmptyString "#1f2937"
                     "#ffffff" "text-6xl" false 1 "normal"))] ∧
  deviceToTimer r.1 !! "s1" = Some "t1".
Proof.
  destruct (create_registers_timer (step initial (Connect "s1")).1 "s1" 0 "t1"
              "Demo" 60 None None "c1" None)
    as (_ & _ & Hmap & _ & _ & Hout & _).
  - discriminate.
  - vm_compute. reflexivity.
  - vm_compute. reflexivity.
  - reflexivity.
  - split; [rewrite Hout; vm_compute; reflexivity | exact Hmap].
Defined.

(** ** What is sent, and to whom *)

Lemma update_out io now t :
  Forall (λ e : Emit, e.1 ∈ io ∧ ∃ s, e.2 = TimerUpdate s) (update io now t).2.
Proof.
  rewrite update_unfold. eapply Forall_impl; [apply broadcast_out |].
  intros e (_ & ? & s & ? & _). eauto.
Qed.

Lemma addDevice_out io now d t :
  Forall (λ e : Emit, e.1 ∈ io ∧ ∃ s, e.2 = TimerUpdate s)
    (addDevice io now d t).2.
Proof.
  unfold addDevice. case_match; [| constructor].
  pose proof (update_out io now
    (with_connectedDevices t (set_add d (connectedDevices t)))) as Hout.
  by destruct (update io now _) as [t' out].
Qed.

Lemma call_out io now c t :
  Forall (λ e : Emit, e.1 ∈ io ∧ ∃ s, e.2 = TimerUpdate s) (call io now c t).2.
Proof.
  destruct c; simpl;
    unfold start, pause, reset, adjustTime, setDuration, updateMessage,
      clearMessage, updateStyling, toggleFlash;
    repeat case_match; first [apply update_out | constructor].
Qed.

Lemma setDuration_out io now d t :
  Forall (λ e : Emit, e.1 ∈ io ∧ ∃ s, e.2 = TimerUpdate s)
    (setDuration io now d t).2.
Proof. unfold setDuration. apply update_out. Qed.

Lemma notifyController_out st timerId owner limit :
  Forall (λ e : Emit, e.1 ∈ sockets st ∧
                      e.2 = LimitExceeded (Some timerId) Viewers limit)
    (notifyController st timerId owner limit).
Proof.
  unfold notifyController. apply Forall_forall. intros e He.
  apply list_elem_of_omap in He as (x & _ & Hx).
  case_decide; [| discriminate]. injection Hx as <-. done.
Qed.

(** X12: the controller's timer list is part of the answer to a join or
    view exactly when the request is a [join-timer], the supplied controller
    owns the timer, and the requester is admitted; it then goes to the
    requester and is the list of that controller's timers after the join.
    A [view-timer], a join under another controller's identity and a
    rejected join send no list. *)
Theorem timer_list_on_owner_join st socketId now genId (joining : bool)
    timerId ctrl maxC t :
  ctrl ≠ EmptyString →
  timers st !! timerId = Some t →
  let r := handle st socketId now genId
             (if joining then JoinTimer timerId ctrl maxC
              else ViewTimer timerId ctrl maxC) in
  let admitted := Z.of_nat (length (connectedDevices t))
                  < default (maxConnectionsAllowed t) maxC in
  (∀ x l, (x, TimerList l) ∈ r.2 →
          x = socketId ∧ l = getTimersForController r.1 ctrl ∧
          joining = true ∧ controllerId t = Some ctrl ∧ admitted) ∧
  (joining = true → controllerId t = Some ctrl → admitted →
   (socketId, TimerList (getTimersForController r.1 ctrl)) ∈ r.2).
Proof.
  intros Hctrl Ht r admitted.
  assert (r = joinOrView st socketId now joining timerId ctrl maxC) as ->
    by (unfold r; by destruct joining).
  unfold joinOrView. rewrite decide_False by done. rewrite Ht.
  pose proof (addDevice_spec (sockets st) now socketId
                (with_maxConnectionsAllowed t
                   (default (maxConnectionsAllowed t) maxC))) as Hadd.
  pose proof (addDevice_out (sockets st) now socketId
                (with_maxConnectionsAllowed t
                   (default (maxConnectionsAllowed t) maxC))) as Hout.
  simpl in Hadd.
  destruct (addDevice (sockets st) now socketId _) as [[wasAdded t'] out].
  simpl in Hadd, Hout. destruct Hadd as (_ & Hown & _ & Hno & Hyes).
  rewrite Forall_forall in Hout.
  destruct wasAdded; simpl.
  - destruct (Hyes eq_refl) as (Hroom & _). split.
    + intros x l Hin. apply elem_of_app in Hin as [Hin | Hin].
      { destruct (Hout _ Hin) as (_ & s & Hs). discriminate Hs. }
      apply elem_of_cons in Hin as [Hin | Hin]; [discriminate |].
      destruct joining; simpl in Hin; [| by apply elem_of_nil in Hin].
      case_bool_decide as Howner; [| by apply elem_of_nil in Hin].
      apply list_elem_of_singleton in Hin. injection Hin as -> ->.
      repeat split; [congruence | exact Hroom].
    + intros -> Howner _. apply elem_of_app. right. right. simpl.
      rewrite bool_decide_eq_true_2 by congruence. left.
  - destruct (Hno eq_refl) as (_ & _ & Hfull). split.
    + intros x l Hin. apply elem_of_cons in Hin as [Hin | Hin]; [discriminate |].
      pose proof (notifyController_out st timerId (controllerId t')
                    (if joining then maxConnectionsAllowed t'
                     else maxConnectionsAllowed t' - 1)) as Hn.
      rewrite Forall_forall in Hn. destruct (Hn _ Hin) as [_ Hx].
      discriminate Hx.
    + intros _ _ Hroom. unfold admitted in Hroom. lia.
Qed.

Lemma timer_list_on_owner_join_witness :
  let st := run initial
              [Connect "s1";
               Receive "s1" 0 "t1" (CreateTimer "Demo" 60 None None "c1" None);
               Connect "s2"] in
  ("s2", TimerList [mkSummary "t1" "Demo" 60 2])
    ∈ (handle st "s2" 1000 "g" (JoinTimer "t1" "c1" None)).2.
Proof.
  destruct (timer_list_on_owner_join
              (run initial
                 [Connect "s1";
                  Receive "s1" 0 "t1"
                    (CreateTimer "Demo" 60 None None "c1" None);
                  Connect "s2"])
              "s2" 1000 "g" true "t1" "c1" None
              (mkTimer "t1" "Demo" 60 60 60 false 4 3 None EmptyString
                 "#1f2937" "#ffffff" "text-6xl" false ["s1"] false (Some "c1")
                 "normal")) as [_ Hsent].
  - discriminate.
  - vm_compute. reflexivity.
  - apply Hsent; [reflexivity | reflexivity | simpl; lia].
Defined.

Lemma handle_sockets st socketId now genId c :
  sockets (handle st socketId now genId c).1 = sockets st.
Proof.
  destruct c; simpl;
    try (match goal with
         | |- context [control st socketId ?i ?k ?m] =>
             by destruct (control_index st socketId i k m) as [_ ->]
         end);
    unfold joinOrView, createTimer, getTimers, deleteTimer;
    repeat case_match; done.
Qed.

(** X13: nothing is ever sent to a socket that is gone: every emission of
    an enabled event is addressed to a socket that is live once the event
    has been handled; in particular a disconnecting socket is sent
    nothing. *)
Theorem emissions_reach_live_sockets st e :
  enabled st e = true →
  Forall (λ x : Emit, x.1 ∈ sockets (step st e).1) (step st e).2.
Proof.
  intros Hen. destruct e as [s | s now genId c | s now | i now]; simpl.
  - constructor.
  - rewrite handle_sockets.
    assert (s ∈ sockets st) as Hs.
    { destruct c; simpl in Hen;
        try (apply andb_prop in Hen as [Hen _]);
        by apply bool_decide_eq_true in Hen. }
    assert (∀ i k m,
              (∀ t, Forall (λ x : Emit, x.1 ∈ sockets st) (m t).2) →
              Forall (λ x : Emit, x.1 ∈ sockets st) (control st s i k m).2)
      as Hcontrol.
    { intros i k m Hm. unfold control. repeat case_match; try constructor.
      match goal with H : m ?t = (_, ?out) |- _ =>
        specialize (Hm t); rewrite H in Hm end.
      apply Forall_app. split; [exact Hm | by repeat constructor]. }
    destruct c; simpl;
      try (apply Hcontrol; intros t;
           eapply Forall_impl;
           [first [ apply setDuration_out
                  | apply (call_out (sockets st) now CStart)
                  | apply (call_out (sockets st) now CPause)
                  | apply (call_out (sockets st) now CReset)
                  | apply (call_out (sockets st) now (CAdjust seconds))
                  | apply (call_out (sockets st) now (CMessage msg))
                  | apply (call_out (sockets st) now CClearMessage)
                  | apply (call_out (sockets st) now (CStyling styling))
                  | apply (call_out (sockets st) now (CFlash flashing)) ]
           | by intros x [? _]]).
    + unfold joinOrView. case_decide; [constructor |].
      destruct (timers st !! timerId) as [t|]; [| by repeat constructor].
      pose proof (addDevice_out (sockets st) now s
                    (with_maxConnectionsAllowed t
                       (default (maxConnectionsAllowed t) maxC))) as Hout.
      destruct (addDevice _ _ _ _) as [[[] t'] out]; simpl in *.
      * apply Forall_app. split.
        -- eapply Forall_impl; [exact Hout | by intros x [? _]].
        -- constructor; [done |]. case_match; by repeat constructor.
      * constructor; [done |].
        eapply Forall_impl; [apply notifyController_out | by intros x [? _]].
    + unfold joinOrView. case_decide; [constructor |].
      destruct (timers st !! timerId) as [t|]; [| by repeat constructor].
      pose proof (addDevice_out (sockets st) now s
                    (with_maxConnectionsAllowed t
                       (default (maxConnectionsAllowed t) maxC))) as Hout.
      destruct (addDevice _ _ _ _) as [[[] t'] out]; simpl in *.
      * apply Forall_app. split.
        -- eapply Forall_impl; [exact Hout | by intros x [? _]].
        -- by repeat constructor.
      * constructor; [done |].
        eapply Forall_impl; [apply notifyController_out | by intros x [? _]].
    + unfold createTimer. case_decide; [constructor |].
      case_match; [by repeat constructor |].
      match goal with
      | |- context [addDevice _ _ _ ?t0] =>
          pose proof (addDevice_out (sockets st) now s t0) as Hout
      end.
      destruct (addDevice _ _ _ _) as [[b t'] out]; simpl in *.
      apply Forall_app. split.
      * eapply Forall_impl; [exact Hout | by intros x [? _]].
      * by repeat constructor.
    + unfold getTimers. case_decide; by repeat constructor.
    + unfold deleteTimer. repeat case_match; try constructor. simpl.
      apply Forall_app. split; [| by repeat constructor].
      apply Forall_forall. intros x Hx.
      apply list_elem_of_omap in Hx as (d & _ & Hd).
      case_decide; [| discriminate]. by injection Hd as <-.
  - destruct (disconnect_index st s now) as [-> _].
    unfold disconnect. simpl.
    destruct (deviceToTimer st !! s) as [i|]; [| constructor].
    case_decide; [constructor |].
    destruct (timers st !! i) as [t|]; [| constructor].
    pose proof (update_out (sockets st ∖ {[s]}) now
                  (with_connectedDevices t (set_delete s (connectedDevices t))))
      as Hout.
    unfold removeDevice. destruct (update _ _ _) as [t' out]. simpl in *.
    eapply Forall_impl; [exact Hout | by intros x [? _]].
  - unfold tick. destruct (timers st !! i) as [t|]; [| constructor].
    case_match; [| constructor].
    pose proof (update_out (sockets st) now t) as Hout.
    destruct (update _ _ _) as [t' out]. simpl in *.
    eapply Forall_impl; [exact Hout | by intros x [? _]].
Qed.

Lemma emissions_reach_live_sockets_witness :
  let st := run initial
              [Connect "s1";
               Receive "s1" 0 "t1" (CreateTimer "Demo" 60 None None "c1" None);
               Connect "s2";
               Receive "s2" 1000 "g" (ViewTimer "t1" "c1" None)] in
  Forall (λ x : Emit, x.1 ∈ sockets (step st (Disconnect "s2" 2000)).1)
    (step st (Disconnect "s2" 2000)).2.
Proof.
  apply (emissions_reach_live_sockets
           (run initial
              [Connect "s1";
               Receive "s1" 0 "t1" (CreateTimer "Demo" 60 None None "c1" None);
               Connect "s2";
               Receive "s2" 1000 "g" (ViewTimer "t1" "c1" None)])
           (Disconnect "s2" 2000)).
  vm_compute. reflexivity.
Defined.

(** X14: a disconnect forgets the session: the socket is no longer live,
    has no [deviceToTimer] entry, is registered under no controller, and is
    not among the connected devices of the timer it was mapped to; the
    entries of the other sockets are untouched.  (An entry that maps the
    socket to the empty timer identifier is falsy and would be skipped.) *)
Theorem disconnect_forgets_session st s now :
  deviceToTimer st !! s ≠ Some EmptyString →
  let r := step st (Disconnect s now) in
  (s ∉ sockets r.1) ∧
  deviceToTimer r.1 !! s = None ∧
  (∀ d, d ≠ s → deviceToTimer r.1 !! d = deviceToTimer st !! d) ∧
  (∀ c, s ∉ get_set (controllerToSocket r.1) c) ∧
  (∀ timerId t', deviceToTimer st !! s = Some timerId →
                 timers r.1 !! timerId = Some t' →
                 s ∉ connectedDevices t').
Proof.
  intros Hfalsy r. unfold r. simpl.
  destruct (disconnect_index st s now) as [Hsock Hidx].
  split; [rewrite Hsock, elem_of_difference, elem_of_singleton; tauto |].
  split; [| split; [| split]].
  - unfold disconnect. simpl.
    destruct (deviceToTimer st !! s) as [i|] eqn:Hi; [| done].
    rewrite decide_False by congruence.
    destruct (timers st !! i) as [t|]; [| by simpl; rewrite lookup_delete_eq].
    destruct (removeDevice _ _ _ _) as [t' out]. simpl.
    by rewrite lookup_delete_eq.
  - intros d Hd. unfold disconnect. simpl.
    destruct (deviceToTimer st !! s) as [i|] eqn:Hi; [| done].
    rewrite decide_False by congruence.
    destruct (timers st !! i) as [t|]; [| by simpl; rewrite lookup_delete_ne].
    destruct (removeDevice _ _ _ _) as [t' out]. simpl.
    by rewrite lookup_delete_ne.
  - intros c. rewrite Hidx. unfold get_set. rewrite lookup_omap.
    destruct (controllerToSocket st !! c) as [l|]; simpl;
      [| apply not_elem_of_nil].
    unfold set_has. case_bool_decide as Hin; simpl; [| done].
    case_decide; simpl; [apply not_elem_of_nil |].
    rewrite set_delete_elem. tauto.
  - intros timerId t' Hmap. unfold disconnect. simpl. rewrite Hmap.
    rewrite decide_False by congruence.
    destruct (timers st !! timerId) as [t|] eqn:Ht; simpl.
    + pose proof (update_fields (sockets st ∖ {[s]}) now
                    (with_connectedDevices t (set_delete s (connectedDevices t))))
        as Hf.
      unfold removeDevice. destruct (update _ _ _) as [t1 out]. simpl in *.
      rewrite lookup_insert_eq. intros [= <-]. rewrite Hf. simpl.
      rewrite list_elem_of_filter, set_delete_elem. tauto.
    + rewrite Ht. discriminate.
Qed.

Lemma disconnect_forgets_session_witness :
  let st := run initial
              [Connect "s1";
               Receive "s1" 0 "t1" (CreateTimer "Demo" 60 None None "c1" None);
               Connect "s2";
               Receive "s2" 1000 "g" (JoinTimer "t1" "c1" None)] in
  let r := step st (Disconnect "s2" 2000) in
  deviceToTimer st !! "s2" = Some "t1" ∧
  deviceToTimer r.1 !! "s2" = None ∧
  ("s2" ∉ get_set (controllerToSocket r.1) "c1") ∧
  r.2 = [("s1", TimerUpdate
                  (mkTimerState "t1" "Demo" 60 60 false EmptyString "#1f2937"
                     "#ffffff" "text-6xl" false 1 "normal"))].
Proof.
  destruct (disconnect_forgets_session
              (run initial
                 [Connect "s1";
                  Receive "s1" 0 "t1" (CreateTimer "Demo" 60 None None "c1" None);
                  Connect "s2";
                  Receive "s2" 1000 "g" (JoinTimer "t1" "c1" None)])
              "s2" 2000) as (_ & Hmap & _ & Hidx & _).
  - vm_compute. discriminate.
  - split; [vm_compute; reflexivity |]. split; [exact Hmap |].
    split; [apply Hidx | vm_compute; reflexivity].
Defined.

(** X15: the helper [ensureControllerConnected] does nothing for a socket
    that is already connected to the timer.  For a socket that is not, it
    writes the [deviceToTimer] entry in either case: on a full timer the
    timer is left as it is and nothing is sent, so the socket is mapped to
    a timer it is not connected to; on a timer with room a live socket is
    connected. *)
Theorem ensureControllerConnected_cases st s now timerId t :
  timers st !! timerId = Some t →
  let r := ensureControllerConnected st s now timerId in
  (s ∈ connectedDevices t → r = (st, [])) ∧
  (s ∉ connectedDevices t →
   deviceToTimer r.1 !! s = Some timerId ∧
   (maxConnectionsAllowed t <= Z.of_nat (length (connectedDevices t)) →
    timers r.1 !! timerId = Some t ∧ r.2 = []) ∧
   (Z.of_nat (length (connectedDevices t)) < maxConnectionsAllowed t →
    s ∈ sockets st →
    ∃ t', timers r.1 !! timerId = Some t' ∧ s ∈ connectedDevices t' ∧
          Z.of_nat (length (connectedDevices t')) <= maxConnectionsAllowed t')).
Proof.
  intros Ht r. unfold r, ensureControllerConnected, set_has. rewrite Ht. split.
  - intros Hin. by rewrite bool_decide_eq_true_2.
  - intros Hout. rewrite bool_decide_eq_false_2 by done. simpl.
    pose proof (addDevice_spec (sockets st) now s t) as Hadd.
    destruct (addDevice (sockets st) now s t) as [[wasAdded t'] out].
    simpl in *. destruct Hadd as (_ & _ & Hmax & Hno & Hyes).
    split; [by rewrite lookup_insert_eq |]. split.
    + intros Hfull. destruct wasAdded.
      * destruct (Hyes eq_refl) as (Hroom & _). lia.
      * destruct (Hno eq_refl) as (-> & -> & _).
        by rewrite lookup_insert_eq.
    + intros Hroom Hlive. destruct wasAdded.
      * destruct (Hyes eq_refl) as (_ & Hlen & Hin).
        exists t'. rewrite lookup_insert_eq. rewrite Hmax. auto.
      * destruct (Hno eq_refl) as (_ & _ & Hfull). lia.
Qed.

Lemma ensureControllerConnected_cases_witness :
  let st := run initial
              [Connect "s1";
               Receive "s1" 0 "t1" (CreateTimer "Demo" 60 (Some 1) None "c1" None);
               Connect "s2"] in
  let r := ensureControllerConnected st "s2" 1000 "t1" in
  deviceToTimer r.1 !! "s2" = Some "t1" ∧
  (∃ t, timers r.1 !! "t1" = Some t ∧ connectedDevices t = ["s1"]) ∧
  r.2 = [].
Proof.
  destruct (ensureControllerConnected_cases
              (run initial
                 [Connect "s1";
                  Receive "s1" 0 "t1"
                    (CreateTimer "Demo" 60 (Some 1) None "c1" None);
                  Connect "s2"])
              "s2" 1000 "t1"
              (mkTimer "t1" "Demo" 60 60 60 false 1 3 None EmptyString "#1f2937"
                 "#ffffff" "text-6xl" false ["s1"] false (Some "c1") "normal"))
    as [_ Hnew].
  - vm_compute. reflexivity.
  - destruct Hnew as (Hmap & Hfull & _).
    + simpl. intros Hin. apply list_elem_of_singleton in Hin. discriminate.
    + destruct Hfull as [Ht Hout]; [simpl; lia |].
      split; [exact Hmap |]. split; [eexists; split; [exact Ht | reflexivity] |].
      exact Hout.
Defined.

(** ** Invariants of the registered timers *)

Lemma control_after st socketId i ctrl method j t' :
  timers (control st socketId i ctrl method).1 !! j = Some t' →
  timers st !! j = Some t' ∨
  ∃ t, timers st !! j = Some t ∧ t' = (method t).1.
Proof.
  unfold control. case_decide; [by left |].
  destruct (timers st !! i) as [t|] eqn:Hi; [| by left].
  case_decide; [| by left].
  destruct (method t) as [t1 out] eqn:Hm. simpl.
  destruct (decide (i = j)) as [-> | Hne].
  - rewrite lookup_insert_eq. intros [= <-]. right. exists t. by rewrite Hm.
  - rewrite lookup_insert_ne by done. by left.
Qed.

(** A timer registered after an event was registered as it is before, or
    evolved from the timer registered under the same identifier, or was
    created by the event. *)
Lemma step_timers st e i t' :
  timers (step st e).1 !! i = Some t' →
  timers st !! i = Some t' ∨
  (∃ t, timers st !! i = Some t ∧ ∃ io, evolves io t t') ∨
  (∃ s now nm dur maxC maxT ctrl styling,
     e = Receive s now i (CreateTimer nm dur maxC maxT ctrl styling) ∧
     ctrl ≠ EmptyString ∧
     t' = (addDevice (sockets st) now s
             (createdTimer i nm dur maxC maxT ctrl styling)).1.2).
Proof.
  destruct e as [s | s now genId c | s now | j now]; simpl.
  - by left.
  - destruct c; simpl.
    + unfold joinOrView. case_decide; [by left |].
      destruct (timers st !! timerId) as [t|] eqn:Ht; [| by left].
      destruct (addDevice _ _ _ _) as [[wasAdded t1] out] eqn:Hadd.
      assert (timers (if wasAdded
                      then _ else _).1 !! i
              = <[timerId := t1]> (timers st) !! i) as -> by by destruct wasAdded.
      destruct (decide (timerId = i)) as [-> | Hne].
      * rewrite lookup_insert_eq. intros [= <-]. right. left.
        exists t. split; [done |]. exists (sockets st).
        eapply evolves_join. by rewrite Hadd.
      * rewrite lookup_insert_ne by done. by left.
    + unfold joinOrView. case_decide; [by left |].
      destruct (timers st !! timerId) as [t|] eqn:Ht; [| by left].
      destruct (addDevice _ _ _ _) as [[wasAdded t1] out] eqn:Hadd.
      assert (timers (if wasAdded
                      then _ else _).1 !! i
              = <[timerId := t1]> (timers st) !! i) as -> by by destruct wasAdded.
      destruct (decide (timerId = i)) as [-> | Hne].
      * rewrite lookup_insert_eq. intros [= <-]. right. left.
        exists t. split; [done |]. exists (sockets st).
        eapply evolves_join. by rewrite Hadd.
      * rewrite lookup_insert_ne by done. by left.
    + unfold createTimer. case_decide; [by left |].
      case_match; [by left |].
      fold (createdTimer genId nm dur maxC maxT ctrl styling).
      destruct (addDevice _ _ _ _) as [[b t1] out] eqn:Hadd. simpl.
      destruct (decide (genId = i)) as [-> | Hne].
      * rewrite lookup_insert_eq. intros [= <-]. right. right.
        exists s, now, nm, dur, maxC, maxT, ctrl, styling.
        split; [done |]. split; [done |]. by rewrite Hadd.
      * rewrite lookup_insert_ne by done. by left.
    + unfold getTimers. case_decide; by left.
    + unfold deleteTimer. case_decide; [by left |].
      destruct (timers st !! timerId) as [t|] eqn:Ht; [| by left].
      case_decide; [| by left]. simpl.
      destruct (decide (timerId = i)) as [-> | Hne].
      * by rewrite lookup_delete_eq.
      * rewrite lookup_delete_ne by done. by left.
    + intros Hl. apply control_after in Hl as [Hl | (t & Ht & ->)]; [by left |].
      right. left. exists t. split; [done |]. exists (sockets st).
      by eapply evolves_set.
    + intros Hl. apply control_after in Hl as [Hl | (t & Ht & ->)]; [by left |].
      right. left. exists t. split; [done |]. exists (sockets st).
      by apply (evolves_call _ _ _ now CStart).
    + intros Hl. apply control_after in Hl as [Hl | (t & Ht & ->)]; [by left |].
      right. left. exists t. split; [done |]. exists (sockets st).
      by apply (evolves_call _ _ _ now CPause).
    + intros Hl. apply control_after in Hl as [Hl | (t & Ht & ->)]; [by left |].
      right. left. exists t. split; [done |]. exists (sockets st).
      by apply (evolves_call _ _ _ now CReset).
    + intros Hl. apply control_after in Hl as [Hl | (t & Ht & ->)]; [by left |].
      right. left. exists t. split; [done |]. exists (sockets st).
      by apply (evolves_call _ _ _ now (CAdjust seconds)).
    + intros Hl. apply control_after in Hl as [Hl | (t & Ht & ->)]; [by left |].
      right. left. exists t. split; [done |]. exists (sockets st).
      by apply (evolves_call _ _ _ now (CMessage msg)).
    + intros Hl. apply control_after in Hl as [Hl | (t & Ht & ->)]; [by left |].
      right. left. exists t. split; [done |]. exists (sockets st).
      by apply (evolves_call _ _ _ now CClearMessage).
    + intros Hl. apply control_after in Hl as [Hl | (t & Ht & ->)]; [by left |].
      right. left. exists t. split; [done |]. exists (sockets st).
      by apply (evolves_call _ _ _ now (CStyling styling)).
    + intros Hl. apply control_after in Hl as [Hl | (t & Ht & ->)]; [by left |].
      right. left. exists t. split; [done |]. exists (sockets st).
      by apply (evolves_call _ _ _ now (CFlash flashing)).
  - unfold disconnect. simpl.
    destruct (deviceToTimer st !! s) as [j|]; [| by left].
    case_decide; [by left |].
    destruct (timers st !! j) as [t|] eqn:Ht; [| by left].
    destruct (removeDevice _ _ _ _) as [t1 out] eqn:Hrem. simpl.
    destruct (decide (j = i)) as [-> | Hne].
    + rewrite lookup_insert_eq. intros [= <-]. right. left.
      exists t. split; [done |]. exists (sockets st ∖ {[s]}).
      eapply evolves_remove. by rewrite Hrem.
    + rewrite lookup_insert_ne by done. by left.
  - unfold tick. destruct (timers st !! j) as [t|] eqn:Ht; [| by left].
    case_match; [| by left].
    destruct (update _ _ _) as [t1 out] eqn:Hup. simpl.
    destruct (decide (j = i)) as [-> | Hne].
    + rewrite lookup_insert_eq. intros [= <-]. right. left.
      exists t. split; [done |]. exists (sockets st).
      eapply evolves_update. by rewrite Hup.
    + rewrite lookup_insert_ne by done. by left.
Qed.

(** A property of timers and their registry key that holds of every
    created timer and that no method loses holds of every timer registered
    in a reachable state. *)
Lemma registered_invariant (P : string → Timer → Prop) :
  (∀ io now s i nm dur maxC maxT ctrl styling,
     ctrl ≠ EmptyString →
     P i (addDevice io now s (createdTimer i nm dur maxC maxT ctrl styling)).1.2) →
  (∀ io i t t', P i t → evolves io t t' → P i t') →
  ∀ st, reachable st → ∀ i t, timers st !! i = Some t → P i t.
Proof.
  intros Hnew Hkeep st Hreach.
  induction Hreach as [| st e _ IH Hen]; intros i t' Hl.
  - simpl in Hl. by rewrite lookup_empty in Hl.
  - apply step_timers in Hl
      as [Hl | [(t & Ht & io & Hev)
               | (s & now & nm & dur & maxC & maxT & ctrl & sty & _ & Hc & ->)]].
    + eauto.
    + eauto.
    + by apply Hnew.
Qed.

Lemma clearTick_interval t : interval (clearTick t) = false.
Proof. unfold clearTick. by destruct (interval t) eqn:Hi. Qed.

Lemma clearTick_isRunning t : isRunning (clearTick t) = isRunning t.
Proof. unfold clearTick. by destruct (interval t). Qed.

Lemma ticking_update io now t : ticking t → ticking (update io now t).1.
Proof.
  rewrite update_fields. unfold ticking, recomputed.
  by case_match.
Qed.

Lemma ticking_stopped io now t :
  isRunning t = false → ticking (update io now (clearTick t)).1.
Proof.
  intros Hstop. apply ticking_update. unfold ticking.
  rewrite clearTick_interval. unfold clearTick.
  destruct (interval t); simpl; rewrite Hstop; split; [done | discriminate | done | discriminate].
Qed.

Lemma ticking_addDevice io now d t :
  ticking t → ticking (addDevice io now d t).1.2.
Proof.
  intros Ht. unfold addDevice. case_match; [| done].
  pose proof (ticking_update io now
    (with_connectedDevices t (set_add d (connectedDevices t))) Ht) as Hu.
  by destruct (update io now _) as [t' out].
Qed.

Lemma ticking_evolves io t t' : ticking t → evolves io t t' → ticking t'.
Proof.
  intros Ht [now c -> | now d -> | now -> | now d -> | now d m ->].
  - destruct c; simpl.
    + unfold start. case_match; [| done]. apply ticking_update.
      unfold ticking. simpl. split; [done | eauto].
    + unfold pause. case_match; [| done]. by apply ticking_stopped.
    + unfold reset. by apply ticking_stopped.
    + unfold adjustTime. case_match; [| by apply ticking_stopped].
      apply ticking_update. case_match.
      * unfold ticking. simpl. rewrite clearTick_interval, clearTick_isRunning.
        simpl. split; [done | discriminate].
      * exact Ht.
    + by apply ticking_update.
    + by apply ticking_update.
    + by apply ticking_update.
    + by apply ticking_update.
  - unfold setDuration. by apply ticking_stopped.
  - by apply ticking_update.
  - by apply ticking_update.
  - by apply ticking_addDevice.
Qed.

(** X16: in every reachable state each registered timer holds an interval
    exactly when it is running, and a running timer has a start time: no
    stopped timer keeps ticking and no running timer is without its tick. *)
Theorem interval_held_while_running st i t :
  reachable st → timers st !! i = Some t →
  interval t = isRunning t ∧ (isRunning t = true → is_Some (startTime t)).
Proof.
  intros Hreach Ht.
  apply (registered_invariant (λ _, ticking)) with (st := st) (i := i); try done.
  - intros io now s j nm dur maxC maxT ctrl styling _.
    apply ticking_addDevice. unfold ticking, createdTimer.
    destruct styling; simpl; split; (done || discriminate).
  - intros io _ t0 t1. apply ticking_evolves.
Qed.

Lemma interval_held_while_running_witness :
  let st := run initial
              [Connect "s1";
               Receive "s1" 0 "t1" (CreateTimer "Demo" 60 None None "c1" None);
               Receive "s1" 1000 "g" (StartTimer "t1" "c1");
               Tick "t1" 2000;
               Receive "s1" 2500 "g" (AdjustTimer "t1" (-100) "c1")] in
  ∃ t, timers st !! "t1" = Some t ∧ interval t = isRunning t ∧
       isRunning t = false.
Proof.
  eexists. split; [vm_compute; reflexivity |].
  split; [| reflexivity].
  eapply (interval_held_while_running
            (run initial
               [Connect "s1";
                Receive "s1" 0 "t1" (CreateTimer "Demo" 60 None None "c1" None);
                Receive "s1" 1000 "g" (StartTimer "t1" "c1");
                Tick "t1" 2000;
                Receive "s1" 2500 "g" (AdjustTimer "t1" (-100) "c1")])
            "t1").
  - apply reachable_run; [apply reachable_initial | vm_compute; reflexivity].
  - vm_compute. reflexivity.
Defined.

Lemma or_else_nonempty v d : d ≠ EmptyString → or_else v d ≠ EmptyString.
Proof. intros Hd. unfold or_else. destruct v; [by case_decide | done]. Qed.

Lemma styled_update io now t : styled t → styled (update io now t).1.
Proof.
  rewrite update_fields. unfold styled, recomputed. by case_match.
Qed.

Lemma styled_addDevice io now d t :
  styled t → styled (addDevice io now d t).1.2.
Proof.
  intros Ht. unfold addDevice. case_match; [| done].
  pose proof (styled_update io now
    (with_connectedDevices t (set_add d (connectedDevices t))) Ht) as Hu.
  by destruct (update io now _) as [t' out].
Qed.

Lemma styled_evolves io t t' : styled t → evolves io t t' → styled t'.
Proof.
  intros Ht [now c -> | now d -> | now -> | now d -> | now d m ->].
  - destruct c; simpl;
      unfold start, pause, reset, adjustTime, setDuration, updateMessage,
        clearMessage, updateStyling, toggleFlash, clearTick;
      repeat case_match; try done; apply styled_update; try done.
    destruct Ht as (? & ? & ? & ?). unfold styled. simpl.
    repeat split; by apply or_else_nonempty.
  - unfold setDuration, clearTick. case_match; by apply styled_update.
  - by apply styled_update.
  - by apply styled_update.
  - by apply styled_addDevice.
Qed.

(** X17: no styling field of a registered timer is ever empty: a creation
    or an [update-styling] that supplies an empty or absent colour, font
    size or view keeps the previous value (the default, at creation). *)
Theorem styling_never_blank st i t :
  reachable st → timers st !! i = Some t →
  backgroundColor t ≠ EmptyString ∧ textColor t ≠ EmptyString ∧
  fontSize t ≠ EmptyString ∧ timerView t ≠ EmptyString.
Proof.
  intros Hreach Ht.
  apply (registered_invariant (λ _, styled)) with (st := st) (i := i); try done.
  - intros io now s j nm dur maxC maxT ctrl styling _.
    apply styled_addDevice. unfold styled, createdTimer.
    destruct styling; simpl; repeat split;
      first [by apply or_else_nonempty | discriminate].
  - intros io _ t0 t1. apply styled_evolves.
Qed.

Lemma styling_never_blank_witness :
  let st := run initial
              [Connect "s1";
               Receive "s1" 0 "t1"
                 (CreateTimer "Demo" 60 None None "c1"
                    (Some (mkStyling (Some EmptyString) None None None)));
               Receive "s1" 1000 "g"
                 (UpdateStyling "t1"
                    (mkStyling None (Some "#000000") (Some EmptyString) None)
                    "c1")] in
  ∃ t, timers st !! "t1" = Some t ∧
       backgroundColor t = "#1f2937" ∧ textColor t = "#000000" ∧
       fontSize t = "text-6xl" ∧ timerView t ≠ EmptyString.
Proof.
  eexists. split; [vm_compute; reflexivity |].
  split; [reflexivity |]. split; [reflexivity |]. split; [reflexivity |].
  eapply (styling_never_blank
            (run initial
               [Connect "s1";
                Receive "s1" 0 "t1"
                  (CreateTimer "Demo" 60 None None "c1"
                     (Some (mkStyling (Some EmptyString) None None None)));
                Receive "s1" 1000 "g"
                  (UpdateStyling "t1"
                     (mkStyling None (Some "#000000") (Some EmptyString) None)
                     "c1")])
            "t1").
  - apply reachable_run; [apply reachable_initial | vm_compute; reflexivity].
  - vm_compute. reflexivity.
Defined.

Lemma evolves_identity io t t' :
  evolves io t t' → id t' = id t ∧ controllerId t' = controllerId t.
Proof.
  intros [now c -> | now d -> | now -> | now d -> | now d m ->].
  - destruct c; simpl;
      [ destruct (start_stable io now t) as (? & ? & _)
      | destruct (pause_stable io now t) as (? & ? & _)
      | destruct (reset_stable io now t) as (? & ? & _)
      | destruct (adjustTime_stable io now seconds t) as (? & ? & _)
      | destruct (updateMessage_stable io now m t) as (? & ? & _)
      | destruct (clearMessage_stable io now t) as (? & ? & _)
      | destruct (updateStyling_stable io now s t) as (? & ? & _)
      | destruct (toggleFlash_stable io now b t) as (? & ? & _) ]; done.
  - by destruct (setDuration_stable io now d t) as (? & ? & _).
  - by destruct (update_stable io now t) as (? & ? & _).
  - by destruct (removeDevice_stable io now d t) as (? & ? & _).
  - by destruct (addDevice_spec io now d (with_maxConnectionsAllowed t m))
      as (? & ? & _).
Qed.

Lemma reachable_identity st i t :
  reachable st → timers st !! i = Some t →
  id t = i ∧ ∃ c, controllerId t = Some c ∧ c ≠ EmptyString.
Proof.
  intros Hreach Ht.
  apply (registered_invariant
           (λ i t, id t = i ∧ ∃ c, controllerId t = Some c ∧ c ≠ EmptyString))
    with (st := st); try done.
  - intros io now s j nm dur maxC maxT ctrl styling Hc.
    destruct (addDevice_spec io now s
                (createdTimer j nm dur maxC maxT ctrl styling)) as (-> & -> & _).
    unfold createdTimer. destruct styling; simpl; eauto.
  - intros io j t0 t1 [Hid Hown] Hev.
    destruct (evolves_identity io t0 t1 Hev) as [-> ->]. done.
Qed.

(** X18: in every reachable state a timer registered under an identifier
    carries that identifier in its [id] field and has an owner, a non-empty
    controller identity; neither ever changes after creation. *)
Theorem registered_timer_identity st i t :
  reachable st → timers st !! i = Some t →
  id t = i ∧ ∃ c, controllerId t = Some c ∧ c ≠ EmptyString.
Proof. apply reachable_identity. Qed.

Lemma registered_timer_identity_witness :
  let st := run initial
              [Connect "s1";
               Receive "s1" 0 "t1" (CreateTimer "Demo" 60 None None "c1" None);
               Connect "s2";
               Receive "s2" 1000 "g" (JoinTimer "t1" "c2" (Some 9))] in
  ∃ t, timers st !! "t1" = Some t ∧ id t = "t1" ∧
       ∃ c, controllerId t = Some c ∧ c ≠ EmptyString.
Proof.
  eexists. split; [vm_compute; reflexivity |].
  eapply (registered_timer_identity
            (run initial
               [Connect "s1";
                Receive "s1" 0 "t1" (CreateTimer "Demo" 60 None None "c1" None);
                Connect "s2";
                Receive "s2" 1000 "g" (JoinTimer "t1" "c2" (Some 9))])
            "t1").
  - apply reachable_run; [apply reachable_initial | vm_compute; reflexivity].
  - vm_compute. reflexivity.
Defined.

(** ** The controller index *)

Lemma listed_step st e :
  (∀ i t c, timers st !! i = Some t → controllerId t = Some c →
            i ∈ get_set (controllerTimers st) c) →
  ∀ i t c, timers (step st e).1 !! i = Some t → controllerId t = Some c →
           i ∈ get_set (controllerTimers (step st e).1) c.
Proof.
  intros Hinv i t' c.
  destruct (step_change st e)
    as [Ht Hc | k t t1 Hk Hst Ht Hc
        | s now g joining k ctrl maxC t _ Hk Ht Hc
        | s now g nm dur maxC maxT ctrl styling t0 _ Howner _ _ Ht Hc
        | s now g k ctrl t _ Hk Howner Ht Hc]; rewrite Ht, Hc; clear Ht Hc.
  - apply Hinv.
  - destruct (decide (k = i)) as [-> | Hne].
    + rewrite lookup_insert_eq. intros Heq Hown. injection Heq as Heq. subst t'.
      destruct Hst as (_ & Hsame & _). rewrite Hsame in Hown. eauto.
    + rewrite lookup_insert_ne by done. apply Hinv.
  - destruct (decide (k = i)) as [-> | Hne].
    + rewrite lookup_insert_eq. intros Heq Hown. injection Heq as Heq. subst t'.
      destruct (addDevice_spec (sockets st) now s
                  (with_maxConnectionsAllowed t
                     (default (maxConnectionsAllowed t) maxC)))
        as (_ & Hsame & _).
      simpl in Hsame. rewrite Hsame in Hown. eauto.
    + rewrite lookup_insert_ne by done. apply Hinv.
  - destruct (decide (g = i)) as [-> | Hne].
    + rewrite lookup_insert_eq. intros Heq Hown. injection Heq as Heq. subst t'.
      destruct (addDevice_spec (sockets st) now s t0) as (_ & Hsame & _).
      rewrite Hsame, Howner in Hown. injection Hown as <-.
      apply get_set_add_to. by left.
    + rewrite lookup_insert_ne by done. intros Hi Hown.
      apply get_set_add_to. right. eauto.
  - destruct (decide (k = i)) as [-> | Hne]; [by rewrite lookup_delete_eq |].
    rewrite lookup_delete_ne by done. intros Hi Hown.
    specialize (Hinv _ _ _ Hi Hown). unfold get_set in *.
    destruct (decide (ctrl = c)) as [-> | Hc].
    + rewrite lookup_alter_eq.
      destruct (controllerTimers st !! c) as [l|]; simpl in *; [| done].
      apply set_delete_elem. split; [congruence | done].
    + by rewrite lookup_alter_ne.
Qed.

Lemma reachable_listed st i t c :
  reachable st → timers st !! i = Some t → controllerId t = Some c →
  i ∈ get_set (controllerTimers st) c.
Proof.
  intros Hreach. revert i t c.
  induction Hreach as [| st e _ IH _].
  - intros i t c Hl. simpl in Hl. by rewrite lookup_empty in Hl.
  - by apply listed_step.
Qed.

(** X19: the timer list of a controller is complete: in every reachable
    state the summary of each registered timer whose owner is [c] is in the
    list [get-timers] sends for [c]. *)
Theorem owned_timers_listed st socketId now genId i t c :
  reachable st → timers st !! i = Some t → controllerId t = Some c →
  c ≠ EmptyString →
  (handle st socketId now genId (GetTimers c)).2
  = [(socketId, TimerList (getTimersForController st c))] ∧
  summary t ∈ getTimersForController st c.
Proof.
  intros Hreach Ht Hown Hc. split.
  - simpl. unfold getTimers. by rewrite decide_False.
  - unfold getTimersForController. apply list_elem_of_omap.
    exists i. split; [by eapply reachable_listed |]. by rewrite Ht.
Qed.

Lemma owned_timers_listed_witness :
  let st := run initial
              [Connect "s1";
               Receive "s1" 0 "t1" (CreateTimer "One" 60 None None "c1" None);
               Receive "s1" 1000 "t2" (CreateTimer "Two" 30 None None "c1" None);
               Receive "s1" 2000 "g" (DeleteTimer "t1" "c1")] in
  (handle st "s1" 3000 "g" (GetTimers "c1")).2
  = [("s1", TimerList (getTimersForController st "c1"))] ∧
  mkSummary "t2" "Two" 30 1 ∈ getTimersForController st "c1".
Proof.
  apply (owned_timers_listed
           (run initial
              [Connect "s1";
               Receive "s1" 0 "t1" (CreateTimer "One" 60 None None "c1" None);
               Receive "s1" 1000 "t2" (CreateTimer "Two" 30 None None "c1" None);
               Receive "s1" 2000 "g" (DeleteTimer "t1" "c1")])
           "s1" 3000 "g" "t2"
           (mkTimer "t2" "Two" 30 30 30 false 4 3 None EmptyString "#1f2937"
              "#ffffff" "text-6xl" false ["s1"] false (Some "c1") "normal")
           "c1").
  - apply reachable_run; [apply reachable_initial | vm_compute; reflexivity].
  - vm_compute. reflexivity.
  - reflexivity.
  - discriminate.
Defined.

Lemma set_add_NoDup x l : NoDup l → NoDup (set_add x l).
Proof.
  intros Hl. unfold set_add, set_has. case_bool_decide as Hx; [done |].
  apply NoDup_app. split; [done |]. split.
  - intros y Hy Hyx. apply list_elem_of_singleton in Hyx. by subst.
  - apply NoDup_singleton.
Qed.

Lemma set_delete_NoDup x l : NoDup l → NoDup (set_delete x l).
Proof. intros Hl. unfold set_delete. by apply NoDup_filter. Qed.

Lemma reachable_index_NoDup st c :
  reachable st → NoDup (get_set (controllerTimers st) c).
Proof.
  intros Hreach. revert c. induction Hreach as [| st e _ IH _]; intros c.
  - unfold get_set. simpl. rewrite lookup_empty. apply NoDup_nil_2.
  - destruct (step_change st e)
      as [_ Hc | k t t1 _ _ _ Hc
          | s now g joining k ctrl maxC t _ _ _ Hc
          | s now g nm dur maxC maxT ctrl styling t0 _ _ _ _ _ Hc
          | s now g k ctrl t _ _ _ _ Hc]; rewrite Hc; try apply IH.
    + unfold add_to, get_set. destruct (decide (ctrl = c)) as [-> | Hne].
      * rewrite lookup_insert_eq. simpl. apply set_add_NoDup, IH.
      * rewrite lookup_insert_ne by done. apply IH.
    + unfold get_set. destruct (decide (ctrl = c)) as [-> | Hne].
      * rewrite lookup_alter_eq. specialize (IH c). unfold get_set in IH.
        destruct (controllerTimers st !! c) as [l|]; simpl in *;
          [by apply set_delete_NoDup | done].
      * rewrite lookup_alter_ne by done. apply IH.
Qed.

(** X20: the timer list of a controller shows no timer twice: in every
    reachable state the list built for [get-timers] has no repeated
    summary, and its summaries carry pairwise different timer
    identifiers. *)
Theorem timer_list_without_repeats st c :
  reachable st → NoDup (sm_id <$> getTimersForController st c).
Proof.
  intros Hreach. unfold getTimersForController.
  pose proof (reachable_index_NoDup st c Hreach) as Hnd.
  induction (get_set (controllerTimers st) c) as [|i l IH]; simpl.
  - apply NoDup_nil_2.
  - apply NoDup_cons in Hnd as [Hi Hl].
    destruct (timers st !! i) as [t|] eqn:Ht; simpl; [| by apply IH].
    apply NoDup_cons. split; [| by apply IH].
    destruct (reachable_identity st i t Hreach Ht) as [-> _].
    intros Hin. apply list_elem_of_fmap in Hin as (sm & Hid & Hsm).
    apply list_elem_of_omap in Hsm as (j & Hj & Hsum).
    destruct (timers st !! j) as [tj|] eqn:Htj; [| discriminate].
    injection Hsum as <-. simpl in Hid.
    destruct (reachable_identity st j tj Hreach Htj) as [Hidj _].
    apply Hi. congruence.
Qed.

Lemma timer_list_without_repeats_witness :
  let st := run initial
              [Connect "s1";
               Receive "s1" 0 "t1" (CreateTimer "One" 60 None None "c1" None);
               Receive "s1" 1000 "t2" (CreateTimer "Two" 30 None None "c1" None)] in
  sm_id <$> getTimersForController st "c1" = ["t1"; "t2"] ∧
  NoDup (sm_id <$> getTimersForController st "c1").
Proof.
  split; [vm_compute; reflexivity |].
  apply (timer_list_without_repeats
           (run initial
              [Connect "s1";
               Receive "s1" 0 "t1" (CreateTimer "One" 60 None None "c1" None);
               Receive "s1" 1000 "t2" (CreateTimer "Two" 30 None None "c1" None)])
           "c1").
  apply reachable_run; [apply reachable_initial | vm_compute; reflexivity].
Defined.

Lemma step_owned_count st e c :
  (length (get_set (controllerTimers (step st e).1) c)
   ≤ length (get_set (controllerTimers st) c))%nat ∨
  ∃ s now g nm dur maxC maxT styling,
    e = Receive s now g (CreateTimer nm dur maxC maxT c styling) ∧
    Z.of_nat (length (get_set (controllerTimers st) c)) < default 3 maxT ∧
    (length (get_set (controllerTimers (step st e).1) c)
     ≤ S (length (get_set (controllerTimers st) c)))%nat.
Proof.
  assert ((∀ s now g nm dur maxC maxT ctrl styling,
             e ≠ Receive s now g (CreateTimer nm dur maxC maxT ctrl styling)) →
          (length (get_set (controllerTimers (step st e).1) c)
           ≤ length (get_set (controllerTimers st) c))%nat) as Hother.
  { intros Hne.
    destruct (step_change st e)
      as [_ Hc | k t t1 _ _ _ Hc
          | s now g joining k ctrl maxC t _ _ _ Hc
          | s now g nm dur maxC maxT ctrl styling t0 He _ _ _ _ _
          | s now g k ctrl t _ _ _ _ Hc]; try (by rewrite Hc).
    - by apply Hne in He.
    - rewrite Hc. unfold get_set. destruct (decide (ctrl = c)) as [-> | Hc'].
      + rewrite lookup_alter_eq.
        destruct (controllerTimers st !! c) as [l|]; simpl; [| done].
        apply set_delete_length.
      + by rewrite lookup_alter_ne. }
  destruct e as [s | s now g cmd | s now | i now];
    [left; by apply Hother | | left; by apply Hother | left; by apply Hother].
  destruct cmd; try (left; by apply Hother).
  clear Hother. simpl. unfold createTimer. case_decide; [by left |].
  destruct (default 3 maxT <=? _) eqn:Hq; [by left |].
  apply Z.leb_gt in Hq.
  destruct (addDevice _ _ _ _) as [[b t'] out]. simpl.
  unfold add_to, get_set. destruct (decide (ctrl = c)) as [-> | Hne].
  - right. exists s, now, g, nm, dur, maxC, maxT, styling.
    split; [done |]. split; [done |].
    rewrite lookup_insert_eq. simpl. apply set_add_length.
  - left. by rewrite lookup_insert_ne.
Qed.

(** X21: the timer quota holds as an invariant: when no [create-timer]
    supplies a quota above [limit] (the default quota is 3), no controller
    is ever indexed with more than [limit] timers. *)
Theorem quota_never_exceeded limit st c :
  reachable_by (quota_within limit) st →
  Z.of_nat (length (get_set (controllerTimers st) c)) <= Z.max 0 limit.
Proof.
  induction 1 as [| st e _ IH [_ Hq]].
  - unfold get_set. simpl. rewrite lookup_empty. simpl. lia.
  - destruct (step_owned_count st e c)
      as [Hle | (s & now & g & nm & dur & maxC & maxT & styling & -> & Hroom & Hle)].
    + lia.
    + simpl in Hq. lia.
Qed.

Lemma quota_never_exceeded_witness :
  let st := (step (step (step initial (Connect "s1")).1
                     (Receive "s1" 0 "t1"
                        (CreateTimer "One" 60 None None "c1" None))).1
               (Receive "s1" 1000 "t2"
                  (CreateTimer "Two" 60 None (Some 1) "c1" None))).1 in
  get_set (controllerTimers st) "c1" = ["t1"] ∧
  Z.of_nat (length (get_set (controllerTimers st) "c1")) <= Z.max 0 3.
Proof.
  split; [vm_compute; reflexivity |].
  apply (quota_never_exceeded 3).
  repeat apply reachable_step.
  - apply reachable_initial.
  - split; [vm_compute; reflexivity | exact I].
  - split; [vm_compute; reflexivity | simpl; lia].
  - split; [vm_compute; reflexivity | simpl; lia].
Defined.

(** ** The session map and the health endpoint *)

Lemma control_deviceToTimer st socketId i ctrl method :
  deviceToTimer (control st socketId i ctrl method).1 = deviceToTimer st.
Proof. unfold control. repeat case_match; done. Qed.

Lemma mapped_step st e :
  named st e →
  timers st !! EmptyString = None →
  (∀ d i, deviceToTimer st !! d = Some i → d ∈ sockets st ∧ i ≠ EmptyString) →
  timers (step st e).1 !! EmptyString = None ∧
  ∀ d i, deviceToTimer (step st e).1 !! d = Some i →
         d ∈ sockets (step st e).1 ∧ i ≠ EmptyString.
Proof.
  intros [Hen Hname] Hnone Hinv. split.
  - destruct (timers (step st e).1 !! EmptyString) as [t'|] eqn:Hl; [| done].
    apply step_timers in Hl
      as [Hl | [(t & Ht & _)
               | (s & now & nm & dur & maxC & maxT & ctrl & sty & -> & _)]];
      [congruence | congruence | done].
  - intros d i.
    destruct e as [s | s now g c | s now | j now]; simpl.
    + intros Hd. destruct (Hinv _ _ Hd). split; [| done].
      apply elem_of_union. by right.
    + rewrite handle_sockets.
      assert (s ∈ sockets st) as Hs.
      { destruct c; simpl in Hen;
          try (apply andb_prop in Hen as [Hen _]);
          by apply bool_decide_eq_true in Hen. }
      destruct c; simpl; try (rewrite control_deviceToTimer; apply Hinv).
      * unfold joinOrView. case_decide; [apply Hinv |].
        destruct (timers st !! timerId) as [t|] eqn:Ht; [| apply Hinv].
        destruct (addDevice _ _ _ _) as [[[] t'] out]; simpl; [| apply Hinv].
        destruct (decide (s = d)) as [-> | Hne].
        -- rewrite lookup_insert_eq. intros [= <-]. split; [done | congruence].
        -- rewrite lookup_insert_ne by done. apply Hinv.
      * unfold joinOrView. case_decide; [apply Hinv |].
        destruct (timers st !! timerId) as [t|] eqn:Ht; [| apply Hinv].
        destruct (addDevice _ _ _ _) as [[[] t'] out]; simpl; [| apply Hinv].
        destruct (decide (s = d)) as [-> | Hne].
        -- rewrite lookup_insert_eq. intros [= <-]. split; [done | congruence].
        -- rewrite lookup_insert_ne by done. apply Hinv.
      * unfold createTimer. case_decide; [apply Hinv |].
        case_match; [apply Hinv |].
        destruct (addDevice _ _ _ _) as [[b t'] out]. simpl.
        destruct (decide (s = d)) as [-> | Hne].
        -- rewrite lookup_insert_eq. by intros [= <-].
        -- rewrite lookup_insert_ne by done. apply Hinv.
      * unfold getTimers. case_decide; apply Hinv.
      * unfold deleteTimer. repeat case_match; try apply Hinv. simpl.
        intros Hd. apply Hinv.
        match goal with
        | _ : timers st !! _ = Some ?t |- _ =>
            destruct (decide (d ∈ connectedDevices t)) as [Hin | Hout];
            [ rewrite (proj1 (lookup_foldr_delete (deviceToTimer st)
                                (connectedDevices t) d) Hin) in Hd; discriminate
            | by rewrite (proj2 (lookup_foldr_delete (deviceToTimer st)
                                   (connectedDevices t) d) Hout) in Hd ]
        end.
    + destruct (disconnect_index st s now) as [-> _].
      assert (deviceToTimer (disconnect st s now).1 !! d = Some i →
              d ≠ s ∧ deviceToTimer st !! d = Some i) as Hdt.
      { unfold disconnect. simpl.
        destruct (deviceToTimer st !! s) as [k|] eqn:Hk.
        - destruct (Hinv _ _ Hk) as [_ Hk']. rewrite decide_False by done.
          assert (∀ st1 : State * list Emit,
                    deviceToTimer st1.1 = deviceToTimer st →
                    delete s (deviceToTimer st1.1) !! d = Some i →
                    d ≠ s ∧ deviceToTimer st !! d = Some i) as Hdel.
          { intros st1 ->. destruct (decide (s = d)) as [-> | Hne].
            - by rewrite lookup_delete_eq.
            - rewrite lookup_delete_ne by done. auto. }
          destruct (timers st !! k) as [t|].
          + destruct (removeDevice _ _ _ _) as [t' out]. simpl.
            by apply (Hdel (with_timers st (<[k:=t']> (timers st)), out)).
          + simpl. by apply (Hdel (st, [])).
        - simpl. intros Hd. split; [congruence | done]. }
      intros Hd. apply Hdt in Hd as [Hne Hd]. destruct (Hinv _ _ Hd).
      split; [| done]. apply elem_of_difference. split; [done |].
      by rewrite elem_of_singleton.
    + unfold tick. repeat case_match; simpl; apply Hinv.
Qed.

(** X22: the [/health] endpoint reports, as its device count, the number of
    sockets that have a [deviceToTimer] entry.  When
    [generateId] never returns the empty string, every socket with an entry
    is live, so the reported device count is never above the number of live
    sockets. *)
Theorem health_counts_live_sessions st :
  reachable_by named st →
  (∀ d i, deviceToTimer st !! d = Some i → d ∈ sockets st) ∧
  ((health st).2 ≤ size (sockets st))%nat.
Proof.
  intros Hreach.
  assert (timers st !! EmptyString = None ∧
          ∀ d i, deviceToTimer st !! d = Some i →
                 d ∈ sockets st ∧ i ≠ EmptyString) as [_ Hinv].
  { induction Hreach as [| st e _ [IH1 IH2] Hnamed].
    - split; [done |]. intros d i Hd. simpl in Hd. by rewrite lookup_empty in Hd.
    - by apply mapped_step. }
  split; [intros d i Hd; by destruct (Hinv d i Hd) |].
  unfold health. simpl. rewrite <- (size_dom (D := gset string)).
  apply subseteq_size. intros d Hd.
  apply elem_of_dom in Hd as [i Hd]. by destruct (Hinv d i Hd).
Qed.

Lemma health_counts_live_sessions_witness :
  let st := (step (step (step (step initial (Connect "s1")).1
                           (Receive "s1" 0 "t1"
                              (CreateTimer "One" 60 None None "c1" None))).1
                     (Connect "s2")).1
               (Disconnect "s1" 1000)).1 in
  health st = (1%nat, 0%nat) ∧ ((health st).2 ≤ size (sockets st))%nat.
Proof.
  split; [vm_compute; reflexivity |].
  apply health_counts_live_sessions.
  repeat apply reachable_step.
  - apply reachable_initial.
  - split; [vm_compute; reflexivity | exact I].
  - split; [vm_compute; reflexivity | discriminate].
  - split; [vm_compute; reflexivity | exact I].
  - split; [vm_compute; reflexivity | exact I].
Defined.

(** ** Rejected and repeated joins *)

(** X23: a [join-timer] or [view-timer] on a timer whose capacity (the
    supplied one, if any) is not above its connected count is rejected: the
    requester is sent [timer-full] with the flag [isgood] false for a join
    and true for a view, then every live socket registered under the owner
    is sent [limit-exceeded] carrying the capacity for a join and the
    capacity minus one for a view.  Only the capacity of the timer changes:
    the requester gets no [deviceToTimer] entry and is not registered under
    the supplied controller. *)
Theorem rejected_join_or_view st socketId now genId (joining : bool)
    timerId ctrl maxC t :
  ctrl ≠ EmptyString →
  timers st !! timerId = Some t →
  default (maxConnectionsAllowed t) maxC <= Z.of_nat (length (connectedDevices t)) →
  let capacity := default (maxConnectionsAllowed t) maxC in
  handle st socketId now genId
    (if joining then JoinTimer timerId ctrl maxC else ViewTimer timerId ctrl maxC)
  = (with_timers st
       (<[timerId := with_maxConnectionsAllowed t capacity]> (timers st)),
     (socketId, TimerFull timerId socketId (negb joining))
       :: notifyController st timerId (controllerId t)
            (if joining then capacity else capacity - 1)).
Proof.
  intros Hctrl Ht Hfull capacity.
  assert (addDevice (sockets st) now socketId
            (with_maxConnectionsAllowed t capacity)
          = (false, with_maxConnectionsAllowed t capacity, [])) as Hadd.
  { unfold addDevice. simpl.
    assert ((Z.of_nat (length (connectedDevices t)) <? capacity) = false) as ->
      by (apply Z.ltb_ge; exact Hfull).
    reflexivity. }
  destruct joining; simpl; unfold joinOrView;
    rewrite decide_False by done; rewrite Ht; fold capacity;
    rewrite Hadd; reflexivity.
Qed.

Lemma rejected_join_or_view_witness :
  let st := run initial
              [Connect "s1";
               Receive "s1" 0 "t1" (CreateTimer "Demo" 60 (Some 2) None "c1" None);
               Connect "s2";
               Receive "s2" 1000 "g" (JoinTimer "t1" "c1" None);
               Connect "s3"] in
  let r := handle st "s3" 2000 "g" (ViewTimer "t1" "c9" None) in
  r.2 = [("s3", TimerFull "t1" "s3" true);
         ("s1", LimitExceeded (Some "t1") Viewers 1);
         ("s2", LimitExceeded (Some "t1") Viewers 1)] ∧
  deviceToTimer r.1 !! "s3" = None ∧
  controllerToSocket r.1 !! "c9" = None.
Proof.
  pose proof (rejected_join_or_view
                (run initial
                   [Connect "s1";
                    Receive "s1" 0 "t1"
                      (CreateTimer "Demo" 60 (Some 2) None "c1" None);
                    Connect "s2";
                    Receive "s2" 1000 "g" (JoinTimer "t1" "c1" None);
                    Connect "s3"])
                "s3" 2000 "g" false "t1" "c9" None
                (mkTimer "t1" "Demo" 60 60 60 false 2 3 None EmptyString
                   "#1f2937" "#ffffff" "text-6xl" false ["s1"; "s2"] false
                   (Some "c1") "normal")) as Hrej.
  cbv zeta in *. rewrite Hrej.
  - split; [vm_compute; reflexivity |].
    split; vm_compute; reflexivity.
  - discriminate.
  - vm_compute. reflexivity.
  - simpl. lia.
Defined.

(** X24: a session that is already connected to a timer and sends
    [join-timer] for it again (without a capacity) is not counted twice:
    with room left it is answered [timer-joined] and the connected devices
    are the live ones among those connected before; on a full timer it is
    answered [timer-full] although it is connected, and stays connected. *)
Theorem repeated_join st socketId now genId timerId ctrl t :
  ctrl ≠ EmptyString →
  timers st !! timerId = Some t →
  socketId ∈ connectedDevices t →
  let r := handle st socketId now genId (JoinTimer timerId ctrl None) in
  ∃ t', timers r.1 !! timerId = Some t' ∧
        (Z.of_nat (length (connectedDevices t)) < maxConnectionsAllowed t →
         connectedDevices t'
         = filter (λ d, d ∈ sockets st) (connectedDevices t) ∧
         (socketId, TimerJoined (getState t')) ∈ r.2) ∧
        (maxConnectionsAllowed t <= Z.of_nat (length (connectedDevices t)) →
         connectedDevices t' = connectedDevices t ∧
         ∃ rest, r.2 = (socketId, TimerFull timerId socketId false) :: rest).
Proof.
  intros Hctrl Ht Hin r. unfold r. simpl. unfold joinOrView.
  rewrite decide_False by done. rewrite Ht.
  assert (with_maxConnectionsAllowed t (default (maxConnectionsAllowed t) None) = t)
    as -> by by destruct t.
  unfold addDevice.
  assert (set_add socketId (connectedDevices t) = connectedDevices t) as ->
    by (unfold set_add, set_has; by rewrite bool_decide_eq_true_2).
  assert (with_connectedDevices t (connectedDevices t) = t) as ->
    by by destruct t.
  destruct (Z.of_nat (length (connectedDevices t)) <? maxConnectionsAllowed t)
    eqn:Hroom.
  - apply Z.ltb_lt in Hroom.
    pose proof (update_fields (sockets st) now t) as Hf.
    destruct (update (sockets st) now t) as [t' out]. simpl in *.
    exists t'. rewrite lookup_insert_eq. split; [done |]. split.
    + intros _. split; [by rewrite Hf |].
      apply elem_of_app. right. left.
    + intros Hfull. lia.
  - apply Z.ltb_ge in Hroom. simpl.
    exists t. rewrite lookup_insert_eq. split; [done |]. split.
    + intros Hlt. lia.
    + intros _. split; [done |]. eauto.
Qed.

Lemma repeated_join_witness :
  let st := run initial
              [Connect "s1";
               Receive "s1" 0 "t1" (CreateTimer "Demo" 60 (Some 1) None "c1" None)] in
  let r := handle st "s1" 1000 "g" (JoinTimer "t1" "c1" None) in
  r.2 = [("s1", TimerFull "t1" "s1" false);
         ("s1", LimitExceeded (Some "t1") Viewers 1)] ∧
  ∃ t', timers r.1 !! "t1" = Some t' ∧ connectedDevices t' = ["s1"].
Proof.
  split; [vm_compute; reflexivity |].
  destruct (repeated_join
              (run initial
                 [Connect "s1";
                  Receive "s1" 0 "t1"
                    (CreateTimer "Demo" 60 (Some 1) None "c1" None)])
              "s1" 1000 "g" "t1" "c1"
              (mkTimer "t1" "Demo" 60 60 60 false 1 3 None EmptyString "#1f2937"
                 "#ffffff" "text-6xl" false ["s1"] false (Some "c1") "normal"))
    as (t' & Hl & _ & Hfull).
  - discriminate.
  - vm_compute. reflexivity.
  - left.
  - exists t'. split; [exact Hl |]. by destruct Hfull as [-> _]; [simpl; lia |].
Defined.
